(** * Course-folder scripts: ClassSetup.py and ClassArchive.py

    A shallow embedding of the two scripts and the properties of their
    directory synchronisation, folder provisioning, semester resolution,
    selection prompts and archiving.

    Modelling conventions.
    - A path is the list of its components below the filesystem root;
      [os.path.join p name] appends one component.  Folder and course names
      are single components.
    - The filesystem is a tree of regular files and directories; a
      directory is a finite map from names to nodes (no links, no
      permissions, exact-case names).
    - Code that touches the filesystem or prints runs in a state and
      exception monad over a [world]: the tree, the lines printed so far and
      the log of mutating filesystem calls.  A raised exception keeps the
      world reached so far, as in Python.
    - The curses prompts read their keys from a list; running out of keys
      is the prompt waiting for input.  Drawing the menu is only modelled
      where it can raise (the subscript [file['name']]); the window is taken
      to be large enough for the menu. *)

From stdpp Require Import gmap strings list fin_maps pretty.

#[local] Set Warnings "-register-all".

(** ** Exceptions and results *)

Inductive exn :=
  | KeyError (key : string)
  | IndexError
  | TypeError
  | FileNotFoundError
  | NotADirectoryError
  | FileExistsError
  | IsADirectoryError
  | PermissionError.

Inductive res (A : Type) :=
  | Ok (a : A)
  | Raise (e : exn).
Arguments Ok {A} a.
Arguments Raise {A} e.

(** ** Python values met in the JSON listings *)

Inductive pyval :=
  | PStr (s : string)
  | PDict (items : list (string * pyval)).

(** First binding of [k] in an association list (a dict keeps one binding
    per key, in insertion order). *)
Fixpoint assoc {V} (k : string) (items : list (string * V)) : option V :=
  match items with
  | [] => None
  | (k', v) :: items' => if String.eqb k k' then Some v else assoc k items'
  end.

(** [v[k]] on a Python value. *)
Definition py_subscript (v : pyval) (k : string) : res pyval :=
  match v with
  | PDict items =>
      match assoc k items with
      | Some x => Ok x
      | None => Raise (KeyError k)
      end
  | PStr _ => Raise TypeError
  end.

(** [l[i]] on a Python list, negative indices counting from the end. *)
Definition py_getitem {A} (l : list A) (i : Z) : res A :=
  let n := Z.of_nat (length l) in
  let j := if bool_decide (i < 0)%Z then (n + i)%Z else i in
  if bool_decide (0 ≤ j < n)%Z then
    match l !! Z.to_nat j with
    | Some x => Ok x
    | None => Raise IndexError
    end
  else Raise IndexError.

(** ** SemesterResolver: [determine_semester]

    [month] and [year] are the fields of [datetime.now()]. *)

Definition determine_semester (month year : Z) : string :=
  if bool_decide (11 ≤ month ≤ 12)%Z then "Spring " +:+ pretty (year + 1)%Z
  else if bool_decide (6 ≤ month ≤ 10)%Z then "Fall " +:+ pretty year
  else "Summer " +:+ pretty year.

(** ** SelectionPrompt: [select_directory] and [select_json_file] *)

Module curses.
Definition KEY_DOWN : Z := 258.
Definition KEY_UP : Z := 259.
Definition KEY_ENTER : Z := 343.
End curses.

(** [ord('\n')] *)
Definition ord_newline : Z := 10.

Definition is_confirm (key : Z) : bool :=
  bool_decide (key ∈ [curses.KEY_ENTER; ord_newline]).

(** One turn of the [while True] loop per key; [None] when the keys run out
    before a confirming key, i.e. [getch] is still waiting. *)
Fixpoint select_directory_loop {A} (directories : list A)
    (cursor_position : Z) (keys : list Z) : option (res A) :=
  match keys with
  | [] => None
  | key :: keys' =>
      if is_confirm key then Some (py_getitem directories cursor_position)
      else if bool_decide (key = curses.KEY_UP)
              && bool_decide (cursor_position > 0)%Z
      then select_directory_loop directories (cursor_position - 1) keys'
      else if bool_decide (key = curses.KEY_DOWN)
              && bool_decide (cursor_position < Z.of_nat (length directories) - 1)%Z
      then select_directory_loop directories (cursor_position + 1) keys'
      else select_directory_loop directories cursor_position keys'
  end.

Definition select_directory {A} (directories : list A) (keys : list Z)
    : option (res A) :=
  select_directory_loop directories 0 keys.

(** Drawing the JSON menu evaluates [file['name']] for every entry. *)
Fixpoint render_names (files : list pyval) : res unit :=
  match files with
  | [] => Ok tt
  | file :: files' =>
      match py_subscript file "name" with
      | Ok _ => render_names files'
      | Raise e => Raise e
      end
  end.

Fixpoint select_json_file_loop (files : list pyval)
    (cursor_position : Z) (keys : list Z) : option (res pyval) :=
  match render_names files with
  | Raise e => Some (Raise e)
  | Ok _ =>
    match keys with
    | [] => None
    | key :: keys' =>
        if is_confirm key then
          Some (match py_getitem files cursor_position with
                | Ok file => py_subscript file "download_url"
                | Raise e => Raise e
                end)
        else if bool_decide (key = curses.KEY_UP)
                && bool_decide (cursor_position > 0)%Z
        then select_json_file_loop files (cursor_position - 1) keys'
        else if bool_decide (key = curses.KEY_DOWN)
                && bool_decide (cursor_position < Z.of_nat (length files) - 1)%Z
        then select_json_file_loop files (cursor_position + 1) keys'
        else select_json_file_loop files cursor_position keys'
    end
  end.

Definition select_json_file (files : list pyval) (keys : list Z)
    : option (res pyval) :=
  select_json_file_loop files 0 keys.

(** ** The filesystem tree *)

Abbreviation path := (list string).

(** What a regular file holds: text, or a zip archive as the list of its
    members (archive name, content) in the order they were written. *)
Inductive data :=
  | Text (s : string)
  | Zip (members : list (path * data)).

Inductive node :=
  | File (content : data)
  | Dir (children : gmap string node).

Fixpoint lookup_path (p : path) (n : node) : option node :=
  match p with
  | [] => Some n
  | x :: p' =>
      match n with
      | Dir cs =>
          match cs !! x with
          | Some c => lookup_path p' c
          | None => None
          end
      | File _ => None
      end
  end.

Definition is_dir (o : option node) : bool :=
  match o with
  | Some (Dir _) => true
  | _ => false
  end.

Definition is_file (o : option node) : bool :=
  match o with
  | Some (File _) => true
  | _ => false
  end.

Definition set_child (x : string) (o : option node) (cs : gmap string node)
    : gmap string node :=
  match o with
  | Some c => <[x:=c]> cs
  | None => delete x cs
  end.

(** The one way the tree changes: the entry at [p] is replaced by what [f]
    makes of it.  Going through a regular file fails; a missing parent fails
    unless [parents] is set, in which case it is created (as [os.makedirs]
    does).  The root itself is never replaced. *)
Fixpoint update (parents : bool) (f : option node → res (option node))
    (p : path) (n : node) : res node :=
  match n with
  | File _ => Raise NotADirectoryError
  | Dir cs =>
      match p with
      | [] =>
          match f (Some n) with
          | Ok _ => Raise PermissionError
          | Raise e => Raise e
          end
      | x :: p' =>
          match p' with
          | [] =>
              match f (cs !! x) with
              | Ok o => Ok (Dir (set_child x o cs))
              | Raise e => Raise e
              end
          | _ :: _ =>
              match cs !! x with
              | Some c =>
                  match update parents f p' c with
                  | Ok c' => Ok (Dir (<[x:=c']> cs))
                  | Raise e => Raise e
                  end
              | None =>
                  if parents then
                    match update parents f p' (Dir ∅) with
                    | Ok c' => Ok (Dir (<[x:=c']> cs))
                    | Raise e => Raise e
                    end
                  else Raise FileNotFoundError
              end
          end
      end
  end.

(** What each mutating call does to the entry it names. *)
Definition mkdir_entry (o : option node) : res (option node) :=
  match o with
  | None => Ok (Some (Dir ∅))
  | Some _ => Raise FileExistsError
  end.

Definition open_w_entry (o : option node) : res (option node) :=
  match o with
  | Some (Dir _) => Raise IsADirectoryError
  | _ => Ok (Some (File (Text "")))
  end.

Definition write_entry (s : string) (o : option node) : res (option node) :=
  match o with
  | Some (File (Text t)) => Ok (Some (File (Text (t +:+ s))))
  | Some (File (Zip _)) => Raise TypeError
  | Some (Dir _) => Raise IsADirectoryError
  | None => Raise FileNotFoundError
  end.

Definition rmtree_entry (o : option node) : res (option node) :=
  match o with
  | Some (Dir _) => Ok None
  | Some (File _) => Raise NotADirectoryError
  | None => Raise FileNotFoundError
  end.

Definition zip_open_entry (o : option node) : res (option node) :=
  match o with
  | Some (Dir _) => Raise IsADirectoryError
  | _ => Ok (Some (File (Zip [])))
  end.

Definition zip_add_entry (arcname : path) (d : data) (o : option node)
    : res (option node) :=
  match o with
  | Some (File (Zip ms)) => Ok (Some (File (Zip (ms ++ [(arcname, d)]))))
  | Some (File (Text _)) => Raise TypeError
  | Some (Dir _) => Raise IsADirectoryError
  | None => Raise FileNotFoundError
  end.

(** ** Paths *)

Definition os_path_join (p : path) (name : string) : path := p ++ [name].

Definition os_path_basename (p : path) : string := default "" (last p).

(** How a path prints: [/a/b]. *)
Fixpoint path_str (p : path) : string :=
  match p with
  | [] => ""
  | x :: p' => "/" +:+ x +:+ path_str p'
  end.

(** [os.path.normpath] on an absolute path; [acc] holds the components kept
    so far, last first. *)
Fixpoint normpath_go (acc p : path) : path :=
  match p with
  | [] => rev acc
  | x :: p' =>
      if bool_decide (x = "" ∨ x = ".") then normpath_go acc p'
      else if bool_decide (x = "..") then normpath_go (tail acc) p'
      else normpath_go (x :: acc) p'
  end.

Definition os_path_normpath (p : path) : path := normpath_go [] p.

Fixpoint commonprefix_length (a b : path) : nat :=
  match a, b with
  | x :: a', y :: b' =>
      if bool_decide (x = y) then S (commonprefix_length a' b') else 0
  | _, _ => 0
  end.

(** [os.path.relpath p start]; the empty list stands for [.]. *)
Definition os_path_relpath (p start : path) : path :=
  let start_list := os_path_normpath start in
  let path_list := os_path_normpath p in
  let i := commonprefix_length start_list path_list in
  replicate (length start_list - i) ".." ++ drop i path_list.

(** ** The world and its monad *)

(** The mutating filesystem calls, logged when they succeed. *)
Inductive fsop :=
  | MakeDirs (p : path)
  | OpenW (p : path)
  | FileWrite (p : path) (s : string)
  | RmTree (p : path)
  | ZipOpen (p : path)
  | ZipWrite (p arcname : path).

Record world := World {
  fs : node;
  stdout : list string;
  calls : list fsop
}.

Definition M (A : Type) : Type := world → res A * world.

#[global] Instance M_ret : MRet M := λ A a w, (Ok a, w).

#[global] Instance M_bind : MBind M := λ A B f m w,
  match m w with
  | (Ok a, w') => f a w'
  | (Raise e, w') => (Raise e, w')
  end.

Definition lift {A} (r : res A) : M A := λ w, (r, w).

Definition read {A} (g : node → A) : M A := λ w, (Ok (g (fs w)), w).

Definition mutate (op : fsop) (parents : bool)
    (f : option node → res (option node)) (p : path) : M unit := λ w,
  match update parents f p (fs w) with
  | Ok n' => (Ok tt, World n' (stdout w) (calls w ++ [op]))
  | Raise e => (Raise e, w)
  end.

Definition print (s : string) : M unit := λ w,
  (Ok tt, World (fs w) (stdout w ++ [s]) (calls w)).

(** [for x in l: body x] *)
Fixpoint for_each {A} (l : list A) (body : A → M unit) : M unit :=
  match l with
  | [] => mret tt
  | x :: l' => body x ;; for_each l' body
  end.

(** [[g x for x in l]] *)
Fixpoint comprehension {A B} (g : A → M B) (l : list A) : M (list B) :=
  match l with
  | [] => mret []
  | x :: l' => y ← g x; ys ← comprehension g l'; mret (y :: ys)
  end.

(** [[x for x in l if c x]] *)
Fixpoint comprehension_if {A} (c : A → M bool) (l : list A) : M (list A) :=
  match l with
  | [] => mret []
  | x :: l' =>
      b ← c x; xs ← comprehension_if c l'; mret (if (b : bool) then x :: xs else xs)
  end.

(** ** Library calls *)

Definition os_path_exists (p : path) : M bool :=
  read (λ n, bool_decide (is_Some (lookup_path p n))).

Definition os_path_isdir (p : path) : M bool :=
  read (λ n, is_dir (lookup_path p n)).

Definition names_of (cs : gmap string node) : list string :=
  (map_to_list cs).*1.

Definition os_listdir (p : path) : M (list string) := λ w,
  match lookup_path p (fs w) with
  | Some (Dir cs) => (Ok (names_of cs), w)
  | Some (File _) => (Raise NotADirectoryError, w)
  | None => (Raise FileNotFoundError, w)
  end.

Definition os_makedirs (p : path) : M unit :=
  mutate (MakeDirs p) true mkdir_entry p.

Definition open_w (p : path) : M unit :=
  mutate (OpenW p) false open_w_entry p.

Definition file_write (p : path) (s : string) : M unit :=
  mutate (FileWrite p s) false (write_entry s) p.

Definition shutil_rmtree (p : path) : M unit :=
  mutate (RmTree p) false rmtree_entry p.

(** ** ClassSetup.py *)

(** A course record: field name and value, in insertion order. *)
Abbreviation course := (list (string * string)).

(** [course[k]] *)
Definition course_getitem (c : course) (k : string) : M string :=
  lift (match assoc k c with
        | Some v => Ok v
        | None => Raise (KeyError k)
        end).

(** The line feed, character 10. *)
Definition newline : string :=
  String (Ascii.Ascii false true false true false false false false) "".

(** The line [f.write] gets for one field. *)
Definition info_line (kv : string * string) : string :=
  kv.1 +:+ ": " +:+ kv.2 +:+ newline.

Definition create_folder_with_info (path : path) (course_info : course)
    : M unit :=
  e ← os_path_exists path;
  if negb e then
    os_makedirs path ;;
    print ("Folder created: " +:+ path_str path) ;;
    let info_file := os_path_join path "course_info.txt" in
    open_w info_file ;;
    for_each course_info (λ kv, file_write info_file (info_line kv)) ;;
    print ("Info file created: " +:+ path_str info_file)
  else
    print ("Folder already exists: " +:+ path_str path).

Definition get_existing_directories (path : path) : M (list string) :=
  e ← os_path_exists path;
  if negb e then mret []
  else
    names ← os_listdir path;
    comprehension_if (λ d, os_path_isdir (os_path_join path d)) names.

Definition is_directory_empty (dir_path : path) : M bool :=
  e ← os_path_exists dir_path;
  d ← (if (e : bool) then os_path_isdir dir_path else mret false);
  if (d : bool) then
    names ← os_listdir dir_path;
    mret (bool_decide (names = []))
  else mret true.

(** The first loop of [synchronize_directories]. *)
Definition create_new_courses (semester_path : path)
    (existing_dirs : list string) (courses : list course) : M unit :=
  for_each courses (λ course,
    course_name ← course_getitem course "coursename";
    if negb (bool_decide (course_name ∈ existing_dirs)) then
      let course_folder_path := os_path_join semester_path course_name in
      create_folder_with_info course_folder_path course
    else mret tt).

(** The second loop of [synchronize_directories]. *)
Definition delete_old_courses (semester_path : path)
    (existing_dirs course_names : list string) : M unit :=
  for_each existing_dirs (λ existing_dir,
    if negb (bool_decide (existing_dir ∈ course_names)) then
      let dir_to_delete := os_path_join semester_path existing_dir in
      b ← is_directory_empty dir_to_delete;
      if (b : bool) then
        shutil_rmtree dir_to_delete ;;
        print ("Deleted directory: " +:+ path_str dir_to_delete)
      else
        print ("Directory '" +:+ existing_dir +:+
               "' is not empty and was not deleted.")
    else mret tt).

Definition synchronize_directories (onedrive_path : path)
    (semester_name : string) (courses : list course) : M unit :=
  let semester_path := os_path_join onedrive_path semester_name in
  existing_dirs ← get_existing_directories semester_path;
  course_names ←
    comprehension (λ course, course_getitem course "coursename") courses;
  create_new_courses semester_path existing_dirs courses ;;
  delete_old_courses semester_path existing_dirs course_names.

(** ** ClassArchive.py *)

Definition dirnames_of (cs : gmap string node) : list string :=
  (filter (λ kv, is_dir (Some kv.2) = true) (map_to_list cs)).*1.

Definition filenames_of (cs : gmap string node) : list string :=
  (filter (λ kv, is_dir (Some kv.2) = false) (map_to_list cs)).*1.

(** [os.walk], top down: the triple of a directory, then the walks of its
    subdirectories. *)
Fixpoint os_walk_node (root : path) (n : node)
    : list (path * list string * list string) :=
  match n with
  | File _ => []
  | Dir cs =>
      (root, dirnames_of cs, filenames_of cs) ::
      map_fold (λ x c acc, os_walk_node (os_path_join root x) c ++ acc) [] cs
  end.

(** A top that is missing or not a directory yields nothing: [os.walk]
    ignores the error of the listing. *)
Definition os_walk (top : path) : M (list (path * list string * list string)) :=
  read (λ n, match lookup_path top n with
             | Some t => os_walk_node top t
             | None => []
             end).

(** [zipfile.ZipFile(p, 'w', ...)] creates or truncates the archive. *)
Definition zip_open (p : path) : M unit :=
  mutate (ZipOpen p) false zip_open_entry p.

(** [zipf.write(filename, arcname)] on the archive at [zip]. *)
Definition zip_write (zip filename arcname : path) : M unit := λ w,
  match lookup_path filename (fs w) with
  | Some (File d) =>
      mutate (ZipWrite filename arcname) false (zip_add_entry arcname d) zip w
  | Some (Dir _) => (Raise IsADirectoryError, w)
  | None => (Raise FileNotFoundError, w)
  end.


Definition archive_directory (dir_path archive_path : path) : M unit :=
  let zip_filename :=
    os_path_join archive_path (os_path_basename dir_path +:+ ".zip") in
  zip_open zip_filename ;;
  walk ← os_walk dir_path;
  for_each walk (λ '(root, dirs, files),
    for_each files (λ file,
      zip_write zip_filename (os_path_join root file)
        (os_path_relpath (os_path_join root file)
                         (os_path_join dir_path "..")))) ;;
  print ("Archived '" +:+ path_str dir_path +:+ "' to '" +:+
         path_str zip_filename +:+ "'.").

(** ** Vocabulary of the statements *)

(** The names of the records that have one. *)
Definition coursenames (courses : list course) : list string :=
  omap (assoc "coursename") courses.

(** The text of the descriptor file of a record. *)
Definition descriptor (course_info : course) : string :=
  foldl (λ acc kv, acc +:+ info_line kv) "" course_info.

(** Two paths part ways: after a common stem they go on with different
    names, so neither lies on or under the other. *)
Definition diverge (p q : path) : Prop :=
  ∃ r a b p1 q1, p = r ++ a :: p1 ∧ q = r ++ b :: q1 ∧ a ≠ b.

(** No regular file stands on the way down to [p]. *)
Fixpoint can_descend (p : path) (n : node) : bool :=
  match n with
  | File _ => false
  | Dir cs =>
      match p with
      | [] => true
      | x :: p' =>
          match cs !! x with
          | Some c => can_descend p' c
          | None => true
          end
      end
  end.

(** The name of the descriptor file. *)
Abbreviation info_name := "course_info.txt".

(** A freshly provisioned course folder: one descriptor file and nothing
    else. *)
Definition provisioned (course_info : course) : node :=
  Dir {[ info_name := File (Text (descriptor course_info)) ]}.

(** The mutating calls of one provisioning, in order. *)
Definition creation_calls (p : path) (course_info : course) : list fsop :=
  MakeDirs p :: OpenW (os_path_join p info_name) ::
  map (λ kv, FileWrite (os_path_join p info_name) (info_line kv)) course_info.

(** The subdirectory names a scan of [p] finds. *)
Definition existing_of (p : path) (n : node) : list string :=
  match lookup_path p n with
  | Some (Dir cs) =>
      filter (λ d, is_dir (lookup_path (os_path_join p d) n) = true) (names_of cs)
  | _ => []
  end.

Definition is_rmtree (op : fsop) : bool :=
  match op with
  | RmTree _ => true
  | _ => false
  end.

(** The diagnostic printed for a non-empty directory that is not deleted. *)
Definition not_deleted_message (existing_dir : string) : string :=
  "Directory '" +:+ existing_dir +:+ "' is not empty and was not deleted.".

(** A record has the field [coursename]. *)
Definition has_coursename (c : course) : Prop :=
  is_Some (assoc "coursename" c).

(** Where the first loop of the synchronisation stands after the records
    [done], having started in [w0]: an entry of the semester folder reads
    as in [w0] or is the freshly provisioned folder of a record of [done]
    whose name was free; every name of [done] is taken; the calls logged
    since [w0] are provisioning calls. *)
Record created_from (sem : path) (done : list course) (w0 w : world)
    : Prop := CreatedFrom {
  created_parent : is_dir (lookup_path sem (fs w)) = true ∨ w = w0;
  created_entries : ∀ x,
    lookup_path (sem ++ [x]) (fs w) = lookup_path (sem ++ [x]) (fs w0)
    ∨ (lookup_path (sem ++ [x]) (fs w0) = None
       ∧ ∃ c, c ∈ done ∧ assoc "coursename" c = Some x
              ∧ lookup_path (sem ++ [x]) (fs w) = Some (provisioned c));
  created_names : ∀ x,
    x ∈ coursenames done → is_Some (lookup_path (sem ++ [x]) (fs w));
  created_calls : ∃ new,
    calls w = calls w0 ++ new
    ∧ Forall (λ op, is_rmtree op = false) new
    ∧ (new = [] → fs w = fs w0)
    ∧ (new ≠ [] →
       ∃ x, x ∈ coursenames done ∧ lookup_path (sem ++ [x]) (fs w0) = None)
}.

(** Where the second loop stands after the scanned names [gone], having
    started in [w1]: an entry reads as in [w1] or was an empty directory
    outside the course names and is gone; the empty ones of [gone] are
    gone, the non-empty ones have their diagnostic printed; the calls
    logged since [w1] delete such empty directories. *)
Record deleted_from (sem : path) (names gone : list string) (w1 w : world)
    : Prop := DeletedFrom {
  deleted_entries : ∀ x,
    lookup_path (sem ++ [x]) (fs w) = lookup_path (sem ++ [x]) (fs w1)
    ∨ (x ∈ gone ∧ (x ∉ names)
       ∧ lookup_path (sem ++ [x]) (fs w1) = Some (Dir ∅)
       ∧ lookup_path (sem ++ [x]) (fs w) = None);
  deleted_empty : ∀ x,
    x ∈ gone → x ∉ names →
    lookup_path (sem ++ [x]) (fs w1) = Some (Dir ∅) →
    lookup_path (sem ++ [x]) (fs w) = None;
  deleted_diagnostic : ∀ x cs,
    x ∈ gone → x ∉ names →
    lookup_path (sem ++ [x]) (fs w1) = Some (Dir cs) → cs ≠ ∅ →
    not_deleted_message x ∈ stdout w;
  deleted_calls : ∃ new,
    calls w = calls w1 ++ new
    ∧ Forall (λ op, ∃ x, op = RmTree (sem ++ [x]) ∧ x ∈ gone ∧ (x ∉ names)
                         ∧ lookup_path (sem ++ [x]) (fs w1) = Some (Dir ∅)) new
    ∧ (new = [] → fs w = fs w1)
}.

(** ** A sample tree and schedule

    A OneDrive folder with one semester: a course folder with homework in
    it, an old course folder with notes, an old empty one, and a loose
    file. *)
Definition sample_tree : node :=
  Dir {[ "OneDrive" :=
    Dir {[ "Spring 2024" :=
      Dir {[ "CS314" := Dir {[ "hw1.txt" := File (Text "due Friday") ]};
             "OLD101" := Dir {[ "notes.txt" := File (Text "keep") ]};
             "OLD102" := Dir ∅;
             "todo.txt" := File (Text "buy books") ]} ]};
         "Volumes" := Dir {[ "Austin Disk" := Dir {[ "UT Austin" := Dir ∅ ]} ]} ]}.

Definition sample_world : world := World sample_tree [] [].

Definition sample_courses : list course :=
  [ [("coursename", "CS314"); ("instructor", "Novak")];
    [("coursename", "M408D"); ("instructor", "Ng")] ].


(** The folder of the course [x] in the semester [sn] under [od]. *)
Definition course_folder (od : path) (sn x : string) : path :=
  os_path_join (os_path_join od sn) x.


(** The sample world after a synchronisation of a semester with no folder
    yet. *)
Definition sample_fall : world :=
  (synchronize_directories ["OneDrive"] "Fall 2024" sample_courses
     sample_world).2.

(** The files an [os.walk] hands to the archiver, in order: each file name
    joined to its root. *)
Definition walk_files (walk : list (path * list string * list string))
    : list path :=
  flat_map (λ '(root, _, files), map (os_path_join root) files) walk.

(** A component that [os.path.normpath] keeps as it is. *)
Definition plain_name (x : string) : Prop := x ≠ "" ∧ x ≠ "." ∧ x ≠ "..".

(** The height of a tree, to reason on a node from its children. *)
Fixpoint depth (n : node) : nat :=
  match n with
  | File _ => 0
  | Dir cs => S (map_fold (λ _ c acc, max (depth c) acc) 0 cs)
  end.

(** What [zipf.write] reads at an entry that is a regular file. *)
Definition file_content (o : option node) : data :=
  match o with
  | Some (File d) => d
  | _ => Text ""
  end.

(** The archive destination set in the main block of ClassArchive.py. *)
Definition main_archive_path : path := ["Volumes"; "Austin Disk"; "UT Austin"].

(** The archive written for the semester of the sample tree. *)
Definition sample_archived : world :=
  (archive_directory ["OneDrive"; "Spring 2024"] main_archive_path
     sample_world).2.

(** The keys a prompt reacts to: the two confirming keys and the two
    arrows. *)
Definition is_menu_key (key : Z) : bool :=
  is_confirm key || bool_decide (key = curses.KEY_UP)
  || bool_decide (key = curses.KEY_DOWN).


(** ** RemoteCourseSource: [get_json_files_from_git], [download_json_from_git]

    The request itself is the remote host's; the functions are modelled on
    the response they get: its status code and its body as [response.json()]
    gives it. *)

(** What these functions can raise besides the built-in exceptions of
    [exn]: [AttributeError], and the plain [Exception] with its message. *)
Inductive failure :=
  | Builtin (e : exn)
  | AttributeError
  | Exception (message : string).

Inductive outcome (A : Type) :=
  | Returned (a : A)
  | Failed (f : failure).
Arguments Returned {A} a.
Arguments Failed {A} f.

Record response (A : Type) := Response {
  status_code : Z;
  json : A
}.
Arguments Response {A} status_code json.
Arguments status_code {A} r.
Arguments json {A} r.

(** [s.endswith(suffix)] *)
Fixpoint str_endswith (s suffix : string) : bool :=
  if String.eqb s suffix then true
  else match s with
       | String _ s' => str_endswith s' suffix
       | EmptyString => false
       end.

(** [[file for file in files if file['name'].endswith('.json')]]: the
    subscript raises on an entry without a name, the method call on a name
    that is not a string. *)
Fixpoint json_files (files : list pyval) : outcome (list pyval) :=
  match files with
  | [] => Returned []
  | file :: files' =>
      match py_subscript file "name" with
      | Raise e => Failed (Builtin e)
      | Ok (PDict _) => Failed AttributeError
      | Ok (PStr name) =>
          match json_files files' with
          | Returned l =>
              Returned (if str_endswith name ".json" then file :: l else l)
          | Failed f => Failed f
          end
      end
  end.

Definition get_json_files_from_git (response : response (list pyval))
    : outcome (list pyval) :=
  if bool_decide (status_code response = 200%Z) then json_files (json response)
  else Failed (Exception ("Failed to get files: "
                          +:+ pretty (status_code response))).

Definition download_json_from_git {A} (response : response A) : outcome A :=
  if bool_decide (status_code response = 200%Z) then Returned (json response)
  else Failed (Exception ("Failed to download file: "
                          +:+ pretty (status_code response))).

(** An entry of a listing whose name is a string ending in [.json]. *)
Definition has_json_name (file : pyval) : Prop :=
  ∃ stem, py_subscript file "name" = Ok (PStr (stem +:+ ".json")).

(** A listing as the remote host gives it. *)
Definition sample_listing : list pyval :=
  [ PDict [("name", PStr "README.md"); ("download_url", PStr "https://h/README.md")];
    PDict [("name", PStr "cs.json"); ("download_url", PStr "https://h/cs.json")];
    PDict [("name", PStr "math.json"); ("download_url", PStr "https://h/math.json")] ].

(** ** Finding the OneDrive folder *)

(** [s.startswith(prefix)] *)
Fixpoint str_startswith (s prefix : string) : bool :=
  match prefix with
  | EmptyString => true
  | String c prefix' =>
      match s with
      | String a s' => Ascii.eqb a c && str_startswith s' prefix'
      | EmptyString => false
      end
  end.

(** [pattern in s] *)
Fixpoint str_contains (s pattern : string) : bool :=
  if str_startswith s pattern then true
  else match s with
       | String _ s' => str_contains s' pattern
       | EmptyString => false
       end.

(** ClassArchive.py: the directories directly under [base_path] whose name
    contains [OneDrive], in this case of the letters. *)
Definition find_onedrive_directories (base_path : path) : M (list path) :=
  names ← os_listdir base_path;
  ds ← comprehension_if (λ d,
         if str_contains d "OneDrive"
         then os_path_isdir (os_path_join base_path d)
         else mret false) names;
  mret (map (os_path_join base_path) ds).

(** The lower-case form of an ASCII letter; any other byte as it is. *)
Definition ascii_lower (a : Ascii.ascii) : Ascii.ascii :=
  let n := Ascii.nat_of_ascii a in
  if bool_decide (65 ≤ n ≤ 90) then Ascii.ascii_of_nat (n + 32) else a.

(** One letter of a pattern compiled with [re.IGNORECASE] against the head
    of a name held as UTF-8: the letter in either case, and for the letter
    [i] also the two letters U+0130 and U+0131 (bytes 196 176 and 196 177),
    which the flag makes equal to it.  Gives the rest of the name. *)
Definition match_letter (c : Ascii.ascii) (s : string) : option string :=
  match s with
  | String a s' =>
      if Ascii.eqb (ascii_lower a) c then Some s'
      else if Ascii.eqb c (Ascii.ascii_of_nat 105)
              && Ascii.eqb a (Ascii.ascii_of_nat 196)
      then match s' with
           | String b s'' =>
               if Ascii.eqb b (Ascii.ascii_of_nat 176)
                  || Ascii.eqb b (Ascii.ascii_of_nat 177)
               then Some s''
               else None
           | EmptyString => None
           end
      else None
  | EmptyString => None
  end.

Fixpoint match_ignorecase (letters : list Ascii.ascii) (s : string) : bool :=
  match letters with
  | [] => true
  | c :: letters' =>
      match match_letter c s with
      | Some s' => match_ignorecase letters' s'
      | None => false
      end
  end.

(** [re.compile(r'OneDrive.*', re.IGNORECASE).match(name)]: the name starts
    with the eight letters, in any case; what follows is free. *)
Definition onedrive_pattern_match (name : string) : bool :=
  match_ignorecase (String.list_ascii_of_string "onedrive") name.

(** The inner loop of [find_onedrive_directory]: the first name of [dirs]
    that the pattern matches, joined to [root]. *)
Fixpoint first_match (root : path) (dirs : list string) : option path :=
  match dirs with
  | [] => None
  | name :: dirs' =>
      if onedrive_pattern_match name then Some (os_path_join root name)
      else first_match root dirs'
  end.

(** The outer loop, over the triples of the walk. *)
Fixpoint first_onedrive (walk : list (path * list string * list string))
    : option path :=
  match walk with
  | [] => None
  | (root, dirs, files) :: walk' =>
      match first_match root dirs with
      | Some p => Some p
      | None => first_onedrive walk'
      end
  end.

(** ClassSetup.py: the first directory below [base_path], at any depth,
    whose name the pattern matches. *)
Definition find_onedrive_directory (base_path : path) : M (option path) :=
  walk ← os_walk base_path;
  mret (first_onedrive walk).

(** A home folder: a OneDrive folder of its own, a nested one, some
    others. *)
Definition home_tree : node :=
  Dir {[ "Users" :=
    Dir {[ "abdon" :=
      Dir {[ "Documents" := Dir {[ "onedrive backup" := Dir ∅ ]};
             "OneDrive - UT" := Dir {[ "Spring 2024" := Dir ∅ ]};
             "My OneDrive" := Dir ∅;
             "OneDrive.txt" := File (Text "not a folder") ]} ]} ]}.

Definition home_world : world := World home_tree [] [].

(** * Properties *)

(** ** SemesterResolver *)

(** C3: for every month [m] and year [y], the resolver gives
    Spring [y+1] for months 11 to 12, Fall [y] for months 6 to 10 and
    Summer [y] for months 1 to 5; in particular months 11 and 12 give Spring
    [y+1], months 6 and 10 give Fall [y], months 1 and 3 give Summer [y]. *)
Theorem determine_semester_policy (m y : Z) :
  ((11 ≤ m ≤ 12)%Z → determine_semester m y = "Spring " +:+ pretty (y + 1)%Z) ∧
  ((6 ≤ m ≤ 10)%Z → determine_semester m y = "Fall " +:+ pretty y) ∧
  ((1 ≤ m ≤ 5)%Z → determine_semester m y = "Summer " +:+ pretty y) ∧
  determine_semester 11 y = "Spring " +:+ pretty (y + 1)%Z ∧
  determine_semester 12 y = "Spring " +:+ pretty (y + 1)%Z ∧
  determine_semester 6 y = "Fall " +:+ pretty y ∧
  determine_semester 10 y = "Fall " +:+ pretty y ∧
  determine_semester 1 y = "Summer " +:+ pretty y ∧
  determine_semester 3 y = "Summer " +:+ pretty y.
Proof.
  unfold determine_semester.
  repeat split; try intros Hm; repeat case_bool_decide; done || lia.
Qed.

Lemma determine_semester_policy_witness :
  determine_semester 11 2023 = "Spring 2024" ∧
  determine_semester 7 2024 = "Fall 2024" ∧
  determine_semester 2 2024 = "Summer 2024".
Proof.
  split; [|split].
  - apply (proj1 (determine_semester_policy 11 2023)). lia.
  - apply (proj1 (proj2 (determine_semester_policy 7 2024))). lia.
  - apply (proj1 (proj2 (proj2 (determine_semester_policy 2 2024)))). lia.
Defined.

(** ** SelectionPrompt *)








(** ** The filesystem tree: lookups after an update *)

Section tree.
Implicit Types (p q s : path) (n : node) (cs : gmap string node).

Lemma lookup_path_app p q n :
  lookup_path (p ++ q) n = lookup_path p n ≫= lookup_path q.
Proof.
  revert n. induction p as [|x p IH]; intros n; simpl; [done|].
  destruct n as [|cs]; [done|]. destruct (cs !! x); [apply IH|done].
Qed.

Lemma lookup_path_snoc s x n :
  lookup_path (s ++ [x]) n =
    match lookup_path s n with
    | Some (Dir cs) => cs !! x
    | _ => None
    end.
Proof.
  rewrite lookup_path_app.
  destruct (lookup_path s n) as [[|cs]|]; simpl; try done.
  by destruct (cs !! x).
Qed.

Lemma lookup_path_empty_dir x p : lookup_path (x :: p) (Dir ∅) = None.
Proof. simpl. by rewrite lookup_empty. Qed.

Lemma lookup_path_empty_dir_inv p cs :
  lookup_path p (Dir ∅) = Some (Dir cs) → p = [] ∧ cs = ∅.
Proof.
  destruct p; simpl; [by intros [= <-]|]. by rewrite lookup_empty.
Qed.

Lemma set_child_eq x o cs : set_child x o cs !! x = o.
Proof.
  destruct o; simpl; [apply lookup_insert_eq|apply lookup_delete_eq].
Qed.

Lemma set_child_ne x y o cs : x ≠ y → set_child x o cs !! y = cs !! y.
Proof.
  intros. destruct o; simpl; [by apply lookup_insert_ne|by apply lookup_delete_ne].
Qed.

Lemma update_cons parents f x p cs :
  p ≠ [] →
  update parents f (x :: p) (Dir cs) =
    match
      match cs !! x with
      | Some c => update parents f p c
      | None =>
          if parents then update parents f p (Dir ∅)
          else Raise FileNotFoundError
      end
    with
    | Ok c' => Ok (Dir (<[x:=c']> cs))
    | Raise e => Raise e
    end.
Proof.
  intros. destruct p; [done|]. simpl.
  destruct (cs !! x); [done|]. by destruct parents.
Qed.

Lemma diverge_cons_inv x p q :
  diverge (x :: p) q →
  (∃ b q1, q = b :: q1 ∧ x ≠ b) ∨ (∃ q', q = x :: q' ∧ diverge p q').
Proof.
  intros (r & a & b & p1 & q1 & Hp & -> & Hab).
  destruct r as [|y r]; simplify_eq/=.
  - left. eauto.
  - right. exists (r ++ b :: q1). split; [done|]. by exists r, a, b, p1, q1.
Qed.

Lemma diverge_siblings s x y : x ≠ y → diverge (s ++ [x]) (s ++ [y]).
Proof. intros. by exists s, x, y, [], []. Qed.

(** What a successful update of the entry [x] of [s] leaves behind: [s] is
    a directory holding what [f] made of the entry, and every path that
    parts ways with [s ++ [x]] reads as before. *)
Lemma update_snoc parents f s x n n' :
  update parents f (s ++ [x]) n = Ok n' →
  ∃ cs o,
    (lookup_path s n = Some (Dir cs)
     ∨ (parents = true ∧ lookup_path s n = None ∧ cs = ∅)) ∧
    f (cs !! x) = Ok o ∧
    lookup_path s n' = Some (Dir (set_child x o cs)) ∧
    ∀ q, diverge (s ++ [x]) q → lookup_path q n' = lookup_path q n.
Proof.
  revert n n'. induction s as [|y s IH]; intros n n' Hup.
  - destruct n as [|cs]; simpl in Hup; [done|].
    destruct (f (cs !! x)) as [o|] eqn:Hf; [|done]. simplify_eq.
    exists cs, o. split_and!; [by left|done|done|].
    intros q [(b & q1 & -> & Hne)|(q' & -> & Hd)]%diverge_cons_inv.
    + simpl. by rewrite set_child_ne.
    + destruct Hd as (r & ? & ? & ? & ? & Hnil & _). by destruct r.
  - destruct n as [|cs0]; [done|].
    change ((y :: s) ++ [x]) with (y :: (s ++ [x])) in *.
    rewrite update_cons in Hup by (by destruct s).
    destruct (cs0 !! y) as [c|] eqn:Hy.
    + destruct (update parents f (s ++ [x]) c) as [c'|] eqn:Hc; [|done].
      simplify_eq. destruct (IH _ _ Hc) as (cs & o & Hs & Hf & Hs' & Hfr).
      exists cs, o. split_and!; [|done| |].
      * simpl. by rewrite Hy.
      * simpl. by rewrite lookup_insert_eq.
      * intros q [(b & q1 & -> & Hne)|(q' & -> & Hd)]%diverge_cons_inv; simpl.
        -- by rewrite lookup_insert_ne.
        -- rewrite lookup_insert_eq, Hy. by apply Hfr.
    + destruct parents; [|done].
      destruct (update true f (s ++ [x]) (Dir ∅)) as [c'|] eqn:Hc; [|done].
      simplify_eq. destruct (IH _ _ Hc) as (cs & o & Hs & Hf & Hs' & Hfr).
      assert (cs = ∅) as ->.
      { destruct Hs as [Hs|(_ & _ & ?)]; [|done].
        by apply lookup_path_empty_dir_inv in Hs as [_ ?]. }
      exists ∅, o. split_and!; [|done| |].
      * right. simpl. by rewrite Hy.
      * simpl. by rewrite lookup_insert_eq.
      * intros q [(b & q1 & -> & Hne)|(q' & -> & Hd)]%diverge_cons_inv; simpl.
        -- by rewrite lookup_insert_ne.
        -- rewrite lookup_insert_eq, Hy, (Hfr _ Hd).
           destruct Hd as (r & a & b & p1 & q1 & _ & -> & _).
           destruct r; apply lookup_path_empty_dir.
Qed.

(** The entry itself after the update. *)
Lemma update_snoc_entry parents f s x n n' :
  update parents f (s ++ [x]) n = Ok n' →
  f (lookup_path (s ++ [x]) n) = Ok (lookup_path (s ++ [x]) n').
Proof.
  intros (cs & o & Hs & Hf & Hs' & _)%update_snoc.
  rewrite !lookup_path_snoc, Hs', set_child_eq.
  destruct Hs as [->|(_ & -> & ->)]; [done|]. by rewrite lookup_empty in Hf.
Qed.

Lemma update_snoc_ok parents f s x n cs o :
  lookup_path s n = Some (Dir cs) → f (cs !! x) = Ok o →
  ∃ n', update parents f (s ++ [x]) n = Ok n'.
Proof.
  revert n. induction s as [|y s IH]; intros n Hs Hf.
  - simpl in Hs. simplify_eq. simpl. rewrite Hf. eauto.
  - destruct n as [|cs0]; [done|]. simpl in Hs.
    change ((y :: s) ++ [x]) with (y :: (s ++ [x])).
    rewrite update_cons by (by destruct s).
    destruct (cs0 !! y) as [c|]; [|done].
    destruct (IH c Hs Hf) as [c' ->]. eauto.
Qed.

Lemma can_descend_dir s n : is_dir (lookup_path s n) = true → can_descend s n = true.
Proof.
  revert n. induction s as [|y s IH]; intros [|cs]; simpl; try done.
  destruct (cs !! y); [apply IH|done].
Qed.

Lemma can_descend_empty_dir s : can_descend s (Dir ∅) = true.
Proof. destruct s; simpl; [done|]. by rewrite lookup_empty. Qed.

(** [os.makedirs] succeeds on a missing entry unless a regular file stands
    on the way. *)
Lemma update_snoc_ok_parents f s x n o :
  can_descend s n = true → lookup_path (s ++ [x]) n = None → f None = Ok o →
  ∃ n', update true f (s ++ [x]) n = Ok n'.
Proof.
  revert n. induction s as [|y s IH]; intros n Hd Hx Hf.
  - destruct n as [|cs]; [done|]. simpl in *.
    destruct (cs !! x); [done|]. rewrite Hf. eauto.
  - destruct n as [|cs0]; [done|]. simpl in Hd, Hx.
    change ((y :: s) ++ [x]) with (y :: (s ++ [x])).
    rewrite update_cons by (by destruct s).
    destruct (cs0 !! y) as [c|].
    + destruct (IH c Hd Hx Hf) as [c' ->]. eauto.
    + destruct (IH (Dir ∅)) as [c' ->]; eauto using can_descend_empty_dir.
      rewrite lookup_path_snoc.
      destruct (lookup_path s (Dir ∅)) as [[|cs]|] eqn:Hs; try done.
      apply lookup_path_empty_dir_inv in Hs as [_ ->]. apply lookup_empty.
Qed.

Lemma names_of_empty cs : names_of cs = [] ↔ cs = ∅.
Proof.
  unfold names_of. rewrite <- map_to_list_empty_iff. split.
  - apply fmap_nil_inv.
  - by intros ->.
Qed.

Lemma elem_of_names_of cs x : x ∈ names_of cs ↔ is_Some (cs !! x).
Proof.
  unfold names_of. rewrite list_elem_of_fmap. split.
  - intros ([y c] & -> & Hin). apply elem_of_map_to_list in Hin. eauto.
  - intros [c Hc]. exists (x, c). split; [done|]. by apply elem_of_map_to_list.
Qed.

Lemma NoDup_names_of cs : NoDup (names_of cs).
Proof. apply NoDup_fst_map_to_list. Qed.
End tree.

(** ** Running the library calls and the small functions *)

Section runs.
Implicit Types (p q s : path) (n : node) (w : world).

Lemma bind_run {A B} (m : M A) (f : A → M B) w :
  (m ≫= f) w =
    match m w with
    | (Ok a, w') => f a w'
    | (Raise e, w') => (Raise e, w')
    end.
Proof. done. Qed.

Lemma for_each_cons {A} (x : A) l body w :
  for_each (x :: l) body w =
    match body x w with
    | (Ok _, w') => for_each l body w'
    | (Raise e, w') => (Raise e, w')
    end.
Proof. done. Qed.

Lemma comprehension_if_read {A} (g : A → node → bool) (l : list A) w :
  comprehension_if (λ d, read (g d)) l w
  = (Ok (filter (λ d, g d (fs w) = true) l), w).
Proof.
  induction l as [|x l IH]; [done|].
  simpl. rewrite bind_run. unfold read at 1. rewrite bind_run, IH.
  unfold mret, M_ret. rewrite filter_cons.
  destruct (g x (fs w)); by rewrite ?decide_True, ?decide_False by done.
Qed.

Lemma get_existing_directories_run p w :
  get_existing_directories p w =
    match lookup_path p (fs w) with
    | Some (File _) => (Raise NotADirectoryError, w)
    | _ => (Ok (existing_of p (fs w)), w)
    end.
Proof.
  unfold get_existing_directories, existing_of.
  rewrite bind_run. unfold os_path_exists, read at 1.
  destruct (lookup_path p (fs w)) as [[d|cs]|] eqn:Hp.
  - rewrite bool_decide_eq_true_2 by eauto. simpl.
    rewrite bind_run. unfold os_listdir. by rewrite Hp.
  - rewrite bool_decide_eq_true_2 by eauto. simpl.
    rewrite bind_run. unfold os_listdir. rewrite Hp.
    apply (comprehension_if_read
             (λ d n, is_dir (lookup_path (os_path_join p d) n))).
  - rewrite bool_decide_eq_false_2 by (by intros [? ?]). done.
Qed.

Lemma elem_of_existing_of p n x :
  x ∈ existing_of p n ↔ is_dir (lookup_path (p ++ [x]) n) = true.
Proof.
  unfold existing_of, os_path_join. rewrite lookup_path_snoc.
  destruct (lookup_path p n) as [[d|cs]|] eqn:Hp;
    [by rewrite elem_of_nil| |by rewrite elem_of_nil].
  rewrite list_elem_of_filter, lookup_path_snoc, Hp, elem_of_names_of.
  split; [by intros [? _]|]. intros H. split; [done|].
  by destruct (cs !! x).
Qed.

Lemma NoDup_existing_of p n : NoDup (existing_of p n).
Proof.
  unfold existing_of.
  destruct (lookup_path p n) as [[d|cs]|]; try apply NoDup_nil_2.
  apply NoDup_filter, NoDup_names_of.
Qed.

Lemma is_directory_empty_run p w :
  is_directory_empty p w =
    (Ok (match lookup_path p (fs w) with
         | Some (Dir cs) => bool_decide (cs = ∅)
         | _ => true
         end), w).
Proof.
  unfold is_directory_empty. rewrite bind_run.
  unfold os_path_exists, read at 1.
  destruct (lookup_path p (fs w)) as [[d|cs]|] eqn:Hp.
  - rewrite bool_decide_eq_true_2 by eauto.
    rewrite bind_run. unfold os_path_isdir, read. by rewrite Hp.
  - rewrite bool_decide_eq_true_2 by eauto.
    rewrite bind_run. unfold os_path_isdir, read. rewrite Hp. simpl.
    rewrite bind_run. unfold os_listdir. rewrite Hp.
    unfold mret, M_ret. do 2 f_equal. apply bool_decide_ext, names_of_empty.
  - rewrite bool_decide_eq_false_2 by (by intros [? ?]). done.
Qed.

Lemma comprehension_cons {A B} (g : A → M B) x l w :
  comprehension g (x :: l) w =
    match g x w with
    | (Ok y, w') =>
        match comprehension g l w' with
        | (Ok ys, w'') => (Ok (y :: ys), w'')
        | (Raise e, w'') => (Raise e, w'')
        end
    | (Raise e, w') => (Raise e, w')
    end.
Proof.
  simpl. rewrite bind_run. destruct (g x w) as [[y|e] w']; [|done].
  rewrite bind_run. by destruct (comprehension g l w') as [[ys|e] w''].
Qed.

(** The record subscripts of the name list: all names, or the [KeyError]
    of the first record without one; the world is not touched. *)
Lemma coursenames_run (courses : list course) w :
  comprehension (λ course, course_getitem course "coursename") courses w =
    if bool_decide (Forall (λ c, is_Some (assoc "coursename" c)) courses)
    then (Ok (coursenames courses), w)
    else (Raise (KeyError "coursename"), w).
Proof.
  induction courses as [|c courses IH]; [done|].
  rewrite comprehension_cons. unfold course_getitem at 1, lift.
  unfold coursenames.
  change (omap (assoc "coursename") (c :: courses)) with
    (match assoc "coursename" c with
     | Some x => x :: omap (assoc "coursename") courses
     | None => omap (assoc "coursename") courses
     end).
  destruct (assoc "coursename" c) as [x|] eqn:Hc.
  - rewrite IH. case_bool_decide as H1.
    + rewrite bool_decide_eq_true_2; [done|]. constructor; eauto.
    + rewrite bool_decide_eq_false_2; [done|].
      intros H2. apply H1. by inversion H2.
  - rewrite bool_decide_eq_false_2; [done|].
    intros H2. inversion H2 as [|?? [? ?]]; simplify_eq.
Qed.

Lemma elem_of_coursenames (courses : list course) x :
  x ∈ coursenames courses ↔
  ∃ c, c ∈ courses ∧ assoc "coursename" c = Some x.
Proof. unfold coursenames. apply list_elem_of_omap. Qed.

Lemma mutate_run op parents f p w :
  mutate op parents f p w =
    match update parents f p (fs w) with
    | Ok n' => (Ok (), World n' (stdout w) (calls w ++ [op]))
    | Raise e => (Raise e, w)
    end.
Proof. done. Qed.
End runs.

(** ** FolderProvisioner: [create_folder_with_info] *)

Section provisioning.
Implicit Types (p q s : path) (n : node) (w : world) (c : course).

Lemma diverge_app_l p q t : diverge p q → diverge (p ++ t) q.
Proof.
  intros (r & a & b & p1 & q1 & -> & -> & Hab).
  exists r, a, b, (p1 ++ t), q1. by rewrite <- app_assoc.
Qed.

Lemma lookup_path_parent_dir s x n :
  is_Some (lookup_path (s ++ [x]) n) → is_dir (lookup_path s n) = true.
Proof.
  rewrite lookup_path_snoc. intros [c Hc].
  by destruct (lookup_path s n) as [[|cs]|].
Qed.

(** The writes of the descriptor lines, on a file that is open. *)
Lemma write_lines_run p (items : course) :
  ∀ w cs t,
  lookup_path p (fs w) = Some (Dir cs) →
  cs !! info_name = Some (File (Text t)) →
  ∃ n',
    for_each items
      (λ kv, file_write (os_path_join p info_name) (info_line kv)) w
    = (Ok (), World n' (stdout w)
         (calls w ++ map (λ kv, FileWrite (os_path_join p info_name)
                                   (info_line kv)) items)) ∧
    lookup_path p n' =
      Some (Dir (<[info_name :=
                     File (Text (foldl (λ acc kv, acc +:+ info_line kv) t items))]>
                   cs)) ∧
    ∀ q, diverge (p ++ [info_name]) q →
         lookup_path q n' = lookup_path q (fs w).
Proof.
  induction items as [|kv items IH]; intros w cs t Hp Ht.
  - exists (fs w). simpl. rewrite app_nil_r, insert_id by done.
    by destruct w.
  - rewrite for_each_cons. unfold file_write at 1, os_path_join.
    rewrite mutate_run.
    destruct (update_snoc_ok false (write_entry (info_line kv)) p info_name
                (fs w) cs (Some (File (Text (t +:+ info_line kv)))))
      as [n1 Hn1]; [done|by rewrite Ht|].
    rewrite Hn1.
    destruct (update_snoc _ _ _ _ _ _ Hn1) as (cs' & o & Hs & Hf & Hs' & Hfr).
    destruct Hs as [Hs|(? & _)]; [|done].
    rewrite Hp in Hs. simplify_eq. rewrite Ht in Hf. simpl in Hf. simplify_eq.
    simpl in Hs'.
    destruct (IH (World n1 (stdout w) (calls w ++ [FileWrite (p ++ [info_name])
                                                    (info_line kv)]))
                _ (t +:+ info_line kv) Hs') as (n' & Hrun & Hp' & Hfr').
    { apply lookup_insert_eq. }
    exists n'. split_and!.
    + unfold os_path_join in Hrun. rewrite Hrun. simpl.
      by rewrite <- app_assoc.
    + by rewrite Hp', insert_insert_eq.
    + intros q Hq. rewrite (Hfr' q Hq). by apply Hfr.
Qed.

Lemma create_folder_exists p c w :
  is_Some (lookup_path p (fs w)) →
  create_folder_with_info p c w
  = (Ok (), World (fs w)
       (stdout w ++ ["Folder already exists: " +:+ path_str p]) (calls w)).
Proof.
  intros Hp. unfold create_folder_with_info. rewrite bind_run.
  unfold os_path_exists, read. by rewrite bool_decide_eq_true_2.
Qed.

Lemma create_folder_raise p c w e :
  lookup_path p (fs w) = None →
  update true mkdir_entry p (fs w) = Raise e →
  create_folder_with_info p c w = (Raise e, w).
Proof.
  intros Hp Hup. unfold create_folder_with_info. rewrite bind_run.
  unfold os_path_exists, read.
  rewrite bool_decide_eq_false_2 by (rewrite Hp; by intros [? ?]).
  simpl. rewrite bind_run. unfold os_makedirs. by rewrite mutate_run, Hup.
Qed.

Lemma create_folder_new p c w n1 :
  lookup_path p (fs w) = None →
  update true mkdir_entry p (fs w) = Ok n1 →
  ∃ n',
    create_folder_with_info p c w
    = (Ok (), World n'
         (stdout w ++ ["Folder created: " +:+ path_str p;
                       "Info file created: "
                         +:+ path_str (os_path_join p info_name)])
         (calls w ++ creation_calls p c)) ∧
    lookup_path p n' = Some (provisioned c) ∧
    ∀ q, diverge p q → lookup_path q n' = lookup_path q (fs w).
Proof.
  intros Hp Hup.
  destruct p as [|x s _] using rev_ind; [done|].
  pose proof (update_snoc_entry _ _ _ _ _ _ Hup) as He.
  rewrite Hp in He. simpl in He. injection He as He.
  destruct (update_snoc _ _ _ _ _ _ Hup) as (_ & _ & _ & _ & _ & Hfr1).
  destruct (update_snoc_ok false open_w_entry (s ++ [x]) info_name n1 ∅
              (Some (File (Text "")))) as [n2 Hn2]; [done|done|].
  destruct (update_snoc _ _ _ _ _ _ Hn2) as (cs2 & o2 & Hs2 & Hf2 & Hs2' & Hfr2).
  destruct Hs2 as [Hs2|(? & _)]; [|done].
  rewrite <- He in Hs2. simplify_eq. rewrite lookup_empty in Hf2.
  simpl in Hf2. simplify_eq. simpl in Hs2'.
  destruct (write_lines_run (s ++ [x]) c
              (World n2 (stdout w ++ ["Folder created: " +:+ path_str (s ++ [x])])
                 ((calls w ++ [MakeDirs (s ++ [x])])
                    ++ [OpenW ((s ++ [x]) ++ [info_name])]))
              _ "" Hs2') as (n' & Hrun & Hp' & Hfr3).
  { apply lookup_insert_eq. }
  exists n'. split_and!.
  - unfold create_folder_with_info. rewrite bind_run.
    unfold os_path_exists, read.
    rewrite bool_decide_eq_false_2 by (rewrite Hp; by intros [? ?]).
    cbn [negb]. rewrite bind_run. unfold os_makedirs. rewrite mutate_run, Hup.
    rewrite bind_run. unfold print at 1. cbv zeta.
    rewrite bind_run. unfold open_w, os_path_join at 1 2.
    rewrite mutate_run. cbn [fs stdout calls]. rewrite Hn2.
    rewrite bind_run, Hrun. unfold print. cbn [fs stdout calls].
    unfold creation_calls, os_path_join. do 2 f_equal.
    + by rewrite <- app_assoc.
    + by rewrite <- !app_assoc.
  - rewrite Hp', insert_insert_eq, insert_empty. done.
  - intros q Hq. rewrite Hfr3 by by apply diverge_app_l.
    simpl. rewrite Hfr2 by by apply diverge_app_l. by apply Hfr1.
Qed.
End provisioning.

(** ** DirectorySynchronizer: the two loops *)

Section synchronisation.
Variables (sem : path) (w0 : world).
Implicit Types (w : world) (c : course) (x : string).
Implicit Types (names gone rest : list string).

Lemma create_new_courses_cons ex c cs w :
  create_new_courses sem ex (c :: cs) w =
    match assoc "coursename" c with
    | None => (Raise (KeyError "coursename"), w)
    | Some x =>
        if bool_decide (x ∈ ex) then create_new_courses sem ex cs w
        else
          match create_folder_with_info (sem ++ [x]) c w with
          | (Ok _, w') => create_new_courses sem ex cs w'
          | (Raise e, w') => (Raise e, w')
          end
    end.
Proof.
  unfold create_new_courses. rewrite for_each_cons, bind_run.
  unfold course_getitem, lift.
  destruct (assoc "coursename" c) as [x|]; [|done].
  by case_bool_decide.
Qed.

Lemma created_from_start : created_from sem [] w0 w0.
Proof.
  split; [by right|by left| |].
  - intros x Hx. by apply elem_of_nil in Hx.
  - exists []. by rewrite app_nil_r.
Qed.

Lemma elem_of_coursenames_snoc done c x' :
  x' ∈ coursenames (done ++ [c]) ↔
  x' ∈ coursenames done ∨ assoc "coursename" c = Some x'.
Proof.
  rewrite !elem_of_coursenames. split.
  - intros (c' & [?|?%list_elem_of_singleton]%elem_of_app & ?);
      simplify_eq; eauto.
  - intros [(c' & ? & ?)|?].
    + exists c'. rewrite elem_of_app. eauto.
    + exists c. rewrite elem_of_app, list_elem_of_singleton. eauto.
Qed.

(** A record whose name is taken leaves the invariant as it is. *)
Lemma created_from_skip done c x w :
  created_from sem done w0 w → assoc "coursename" c = Some x →
  is_Some (lookup_path (sem ++ [x]) (fs w)) →
  created_from sem (done ++ [c]) w0 w.
Proof.
  intros [Hpar Hent Hnam (new & Hcalls & Hnew & Hnil & Hne)] Hc Hx.
  split; [done| | |].
  - intros y. destruct (Hent y) as [?|(? & c' & ? & ? & ?)]; [by left|].
    right. split; [done|]. exists c'. rewrite elem_of_app. eauto.
  - intros y [?|?]%elem_of_coursenames_snoc; [eauto|]. by simplify_eq.
  - exists new. split_and!; try done.
    intros (y & ? & ?)%Hne. exists y.
    rewrite elem_of_coursenames_snoc. eauto.
Qed.

(** Printing changes nothing once the semester folder is there. *)
Lemma created_from_print done w l :
  created_from sem done w0 w → is_dir (lookup_path sem (fs w)) = true →
  created_from sem done w0 (World (fs w) (stdout w ++ l) (calls w)).
Proof. intros [Hpar Hent Hnam Hcalls] Hd. split; [by left|done..]. Qed.

(** Provisioning a record whose name was free. *)
Lemma created_from_new done c x w n' l :
  created_from sem done w0 w → assoc "coursename" c = Some x →
  lookup_path (sem ++ [x]) (fs w) = None →
  lookup_path (sem ++ [x]) n' = Some (provisioned c) →
  (∀ q, diverge (sem ++ [x]) q → lookup_path q n' = lookup_path q (fs w)) →
  created_from sem (done ++ [c]) w0
    (World n' l (calls w ++ creation_calls (sem ++ [x]) c)).
Proof.
  intros [Hpar Hent Hnam (new & Hcalls & Hnew & Hnil & Hne)] Hc Hx Hx' Hfr.
  assert (lookup_path (sem ++ [x]) (fs w0) = None) as Hx0.
  { destruct (Hent x) as [<-|(? & _)]; done. }
  split; cbn [fs calls].
  - left. apply (lookup_path_parent_dir sem x). by rewrite Hx'.
  - intros y. destruct (decide (y = x)) as [->|Hyx].
    + right. split; [done|]. exists c.
      rewrite elem_of_app, list_elem_of_singleton. eauto.
    + rewrite Hfr by by apply diverge_siblings.
      destruct (Hent y) as [?|(? & c' & ? & ? & ?)]; [by left|].
      right. split; [done|]. exists c'. rewrite elem_of_app. eauto.
  - intros y Hy. destruct (decide (y = x)) as [->|Hyx]; [by rewrite Hx'|].
    rewrite Hfr by by apply diverge_siblings.
    apply elem_of_coursenames_snoc in Hy as [?|?]; [eauto|]. by simplify_eq.
  - exists (new ++ creation_calls (sem ++ [x]) c). split_and!.
    + by rewrite Hcalls, <- app_assoc.
    + apply Forall_app. split; [done|].
      unfold creation_calls. repeat constructor.
      by apply Forall_forall; intros ? (? & -> & _)%list_elem_of_fmap.
    + intros [_ ?]%app_eq_nil. done.
    + intros _. exists x. rewrite elem_of_coursenames_snoc. eauto.
Qed.

(** The first loop: it either completes with the invariant, or raises
    before anything was done, a regular file standing on the way to the
    semester folder. *)
Lemma create_new_courses_run cs :
  ∀ done w,
  created_from sem done w0 w → Forall has_coursename cs →
  match create_new_courses sem (existing_of sem (fs w0)) cs w with
  | (Ok _, w') => created_from sem (done ++ cs) w0 w'
  | (Raise e, w') => w' = w0 ∧ can_descend sem (fs w0) = false
  end.
Proof.
  induction cs as [|c cs IH]; intros done w Hinv Hcs.
  { by rewrite app_nil_r. }
  apply Forall_cons in Hcs as [[x Hc] Hcs].
  rewrite create_new_courses_cons, Hc.
  replace (done ++ c :: cs) with ((done ++ [c]) ++ cs)
    by by rewrite <- app_assoc.
  case_bool_decide as Hex.
  { apply IH; [|done]. apply created_from_skip with x; [done..|].
    apply elem_of_existing_of in Hex.
    destruct (created_entries _ _ _ _ Hinv x) as [->|[Hn _]].
    - by destruct (lookup_path (sem ++ [x]) (fs w0)).
    - by rewrite Hn in Hex. }
  destruct (lookup_path (sem ++ [x]) (fs w)) as [nx|] eqn:Hx.
  { rewrite create_folder_exists by (by rewrite Hx).
    apply IH; [|done]. apply created_from_print.
    - apply created_from_skip with x; [done..|by rewrite Hx].
    - apply (lookup_path_parent_dir sem x). by rewrite Hx. }
  destruct (update true mkdir_entry (sem ++ [x]) (fs w)) as [n1|e] eqn:Hup.
  - destruct (create_folder_new _ c _ _ Hx Hup) as (n' & -> & Hx' & Hfr).
    apply IH; [|done]. by apply created_from_new.
  - rewrite (create_folder_raise _ c _ _ Hx Hup).
    assert (can_descend sem (fs w) = false) as Hcd.
    { destruct (can_descend sem (fs w)) eqn:Hcd; [|done].
      destruct (update_snoc_ok_parents mkdir_entry sem x (fs w)
                  (Some (Dir ∅)) Hcd Hx) as [n1 Hn1]; [done|].
      by rewrite Hn1 in Hup. }
    destruct (created_parent _ _ _ _ Hinv) as [Hd| ->]; [|done].
    apply can_descend_dir in Hd. by rewrite Hd in Hcd.
Qed.

Lemma delete_old_courses_cons names x rest w :
  delete_old_courses sem (x :: rest) names w =
    if bool_decide (x ∈ names) then delete_old_courses sem rest names w
    else if match lookup_path (sem ++ [x]) (fs w) with
            | Some (Dir cs) => bool_decide (cs = ∅)
            | _ => true
            end
    then
      match shutil_rmtree (sem ++ [x]) w with
      | (Ok _, w') =>
          delete_old_courses sem rest names
            (World (fs w')
               (stdout w' ++ ["Deleted directory: " +:+ path_str (sem ++ [x])])
               (calls w'))
      | (Raise e, w') => (Raise e, w')
      end
    else
      delete_old_courses sem rest names
        (World (fs w) (stdout w ++ [not_deleted_message x]) (calls w)).
Proof.
  unfold delete_old_courses. rewrite for_each_cons.
  case_bool_decide; [done|]. cbn [negb]. cbv zeta.
  rewrite bind_run, is_directory_empty_run. unfold os_path_join.
  destruct (match lookup_path (sem ++ [x]) (fs w) with
            | Some (Dir cs) => bool_decide (cs = ∅)
            | _ => true
            end); [|done].
  rewrite bind_run.
  by destruct (shutil_rmtree (sem ++ [x]) w) as [[[]|e] w'].
Qed.

Lemma deleted_from_start names w1 : deleted_from sem names [] w1 w1.
Proof.
  split; [by left| | |].
  - intros x Hx. by apply elem_of_nil in Hx.
  - intros x cs Hx. by apply elem_of_nil in Hx.
  - exists []. by rewrite app_nil_r.
Qed.

Lemma deleted_calls_mono names gone x w1 (new : list fsop) :
  Forall (λ op, ∃ y, op = RmTree (sem ++ [y]) ∧ y ∈ gone ∧ (y ∉ names)
            ∧ lookup_path (sem ++ [y]) (fs w1) = Some (Dir ∅)) new →
  Forall (λ op, ∃ y, op = RmTree (sem ++ [y]) ∧ y ∈ gone ++ [x] ∧ (y ∉ names)
            ∧ lookup_path (sem ++ [y]) (fs w1) = Some (Dir ∅)) new.
Proof.
  intros H. eapply Forall_impl; [done|].
  intros op (y & ? & ? & ? & ?). exists y. rewrite elem_of_app. eauto.
Qed.

(** A scanned name that is a course name is passed over. *)
Lemma deleted_from_skip names gone x w1 w :
  deleted_from sem names gone w1 w → x ∈ names →
  deleted_from sem names (gone ++ [x]) w1 w.
Proof.
  intros [Hent Hemp Hdiag (new & Hcalls & Hnew & Hnil)] Hx. split.
  - intros y. destruct (Hent y) as [?|(? & ? & ? & ?)]; [by left|].
    right. rewrite elem_of_app. eauto.
  - intros y [?|?%list_elem_of_singleton]%elem_of_app ? ?; subst; eauto.
    done.
  - intros y cs [?|?%list_elem_of_singleton]%elem_of_app ? ? ?; subst; eauto.
    done.
  - exists new. eauto using deleted_calls_mono.
Qed.

(** A non-empty directory outside the course names is kept, with its
    diagnostic. *)
Lemma deleted_from_kept names gone x cs w1 w :
  deleted_from sem names gone w1 w → x ∉ names →
  lookup_path (sem ++ [x]) (fs w1) = Some (Dir cs) → cs ≠ ∅ →
  deleted_from sem names (gone ++ [x]) w1
    (World (fs w) (stdout w ++ [not_deleted_message x]) (calls w)).
Proof.
  intros [Hent Hemp Hdiag (new & Hcalls & Hnew & Hnil)] Hx Hcs Hne.
  split; cbn [fs stdout calls].
  - intros y. destruct (Hent y) as [?|(? & ? & ? & ?)]; [by left|].
    right. rewrite elem_of_app. eauto.
  - intros y [?|?%list_elem_of_singleton]%elem_of_app ? Hy; [eauto|].
    subst y. rewrite Hcs in Hy. by simplify_eq.
  - intros y cs' [?|?%list_elem_of_singleton]%elem_of_app ? ? ?;
      rewrite elem_of_app, list_elem_of_singleton; subst; eauto.
  - exists new. eauto using deleted_calls_mono.
Qed.

(** An empty directory outside the course names is removed. *)
Lemma deleted_from_removed names gone x w1 w n' l :
  deleted_from sem names gone w1 w → x ∉ names →
  lookup_path (sem ++ [x]) (fs w1) = Some (Dir ∅) →
  lookup_path (sem ++ [x]) n' = None →
  (∀ q, diverge (sem ++ [x]) q → lookup_path q n' = lookup_path q (fs w)) →
  deleted_from sem names (gone ++ [x]) w1
    (World n' (stdout w ++ l) (calls w ++ [RmTree (sem ++ [x])])).
Proof.
  intros [Hent Hemp Hdiag (new & Hcalls & Hnew & Hnil)] Hx Hx1 Hx' Hfr.
  split; cbn [fs stdout calls].
  - intros y. destruct (decide (y = x)) as [->|Hyx].
    + right. rewrite elem_of_app, list_elem_of_singleton. eauto.
    + rewrite Hfr by by apply diverge_siblings.
      destruct (Hent y) as [?|(? & ? & ? & ?)]; [by left|].
      right. rewrite elem_of_app. eauto.
  - intros y Hy ? ?. destruct (decide (y = x)) as [->|Hyx]; [done|].
    rewrite Hfr by by apply diverge_siblings.
    apply elem_of_app in Hy as [?|?%list_elem_of_singleton]; [eauto|done].
  - intros y cs [?|?%list_elem_of_singleton]%elem_of_app ? Hy ?.
    + rewrite elem_of_app. eauto.
    + subst y. rewrite Hx1 in Hy. by simplify_eq.
  - exists (new ++ [RmTree (sem ++ [x])]). split_and!.
    + by rewrite Hcalls, <- app_assoc.
    + apply Forall_app. split; [by eapply deleted_calls_mono|].
      constructor; [|done]. exists x.
      rewrite elem_of_app, list_elem_of_singleton. eauto.
    + intros [_ ?]%app_eq_nil. done.
Qed.

(** The second loop: over scanned names that are still directories, it
    completes with the invariant. *)
Lemma delete_old_courses_run names w1 rest :
  ∀ gone w,
  deleted_from sem names gone w1 w → NoDup (gone ++ rest) →
  Forall (λ x, is_dir (lookup_path (sem ++ [x]) (fs w1)) = true) rest →
  ∃ w', delete_old_courses sem rest names w = (Ok (), w')
        ∧ deleted_from sem names (gone ++ rest) w1 w'.
Proof.
  induction rest as [|x rest IH]; intros gone w Hinv Hnd Hdirs.
  { exists w. by rewrite app_nil_r. }
  apply Forall_cons in Hdirs as [Hx Hdirs].
  replace (gone ++ x :: rest) with ((gone ++ [x]) ++ rest) in *
    by by rewrite <- app_assoc.
  assert (x ∉ gone) as Hxg.
  { apply NoDup_app in Hnd as [Hnd _]. apply NoDup_app in Hnd as (_ & Hnd & _).
    intros ?. apply (Hnd x); [done|]. by apply list_elem_of_singleton. }
  rewrite delete_old_courses_cons.
  case_bool_decide as Hn.
  { apply IH; [|done..]. by apply deleted_from_skip. }
  destruct (lookup_path (sem ++ [x]) (fs w1)) as [[|cs]|] eqn:Hx1; try done.
  assert (lookup_path (sem ++ [x]) (fs w) = Some (Dir cs)) as Hxw.
  { destruct (deleted_entries _ _ _ _ _ Hinv x) as [->|(? & _)]; done. }
  rewrite Hxw. case_bool_decide as Hcs.
  - subst cs. unfold shutil_rmtree. rewrite mutate_run.
    pose proof Hxw as Hsem. rewrite lookup_path_snoc in Hsem.
    destruct (lookup_path sem (fs w)) as [[|csem]|] eqn:Hs; try done.
    destruct (update_snoc_ok false rmtree_entry sem x (fs w) csem None)
      as [n' Hn']; [done|by rewrite Hsem|].
    rewrite Hn'. cbn [fs stdout calls].
    pose proof (update_snoc_entry _ _ _ _ _ _ Hn') as He.
    rewrite Hxw in He. simpl in He. injection He as He.
    destruct (update_snoc _ _ _ _ _ _ Hn') as (_ & _ & _ & _ & _ & Hfr).
    apply IH; [|done..]. by apply deleted_from_removed.
  - apply IH; [|done..]. by apply deleted_from_kept with cs.
Qed.
End synchronisation.

(** ** DirectorySynchronizer: [synchronize_directories] *)

Lemma can_descend_file s n d :
  lookup_path s n = Some (File d) → can_descend s n = false.
Proof.
  revert n. induction s as [|y s IH]; intros [|cs]; simpl; try done.
  destruct (cs !! y); [apply IH|done].
Qed.

(** A whole run: it completes through both loops, or raises with the world
    as it found it. *)
Lemma synchronize_directories_run od sn (courses : list course) w0 :
  match synchronize_directories od sn courses w0 with
  | (Ok _, w') =>
      Forall has_coursename courses ∧
      ∃ w1, created_from (od ++ [sn]) courses w0 w1
            ∧ deleted_from (od ++ [sn]) (coursenames courses)
                (existing_of (od ++ [sn]) (fs w0)) w1 w'
  | (Raise e, w') =>
      w' = w0 ∧ (¬ Forall has_coursename courses
                 ∨ can_descend (od ++ [sn]) (fs w0) = false)
  end.
Proof.
  unfold synchronize_directories, os_path_join. cbv zeta.
  rewrite bind_run, get_existing_directories_run.
  assert (
    match
      (comprehension (λ course, course_getitem course "coursename") courses
       ≫= λ course_names,
         create_new_courses (od ++ [sn]) (existing_of (od ++ [sn]) (fs w0)) courses ;;
         delete_old_courses (od ++ [sn]) (existing_of (od ++ [sn]) (fs w0))
           course_names) w0
    with
    | (Ok _, w') =>
        Forall has_coursename courses ∧
        ∃ w1, created_from (od ++ [sn]) courses w0 w1
              ∧ deleted_from (od ++ [sn]) (coursenames courses)
                  (existing_of (od ++ [sn]) (fs w0)) w1 w'
    | (Raise e, w') =>
        w' = w0 ∧ (¬ Forall has_coursename courses
                   ∨ can_descend (od ++ [sn]) (fs w0) = false)
    end) as Hrest.
  { rewrite bind_run, coursenames_run.
    case_bool_decide as Hall; [|by auto].
    rewrite bind_run.
    pose proof (create_new_courses_run (od ++ [sn]) w0 courses [] w0
                  (created_from_start _ _) Hall) as H1.
    destruct (create_new_courses _ _ _ _) as [[[]|e] w1]; [|by destruct H1; auto].
    simpl in H1.
    destruct (delete_old_courses_run (od ++ [sn]) (coursenames courses) w1
                (existing_of (od ++ [sn]) (fs w0)) [] w1)
      as (w' & -> & H2).
    - apply deleted_from_start.
    - apply NoDup_existing_of.
    - apply Forall_forall. intros x Hx%elem_of_existing_of.
      destruct (created_entries _ _ _ _ H1 x) as [->|[Hn _]]; [done|].
      by rewrite Hn in Hx.
    - eauto. }
  destruct (lookup_path (od ++ [sn]) (fs w0)) as [[d|cs]|] eqn:Hsem.
  - split; [done|]. right. by eapply can_descend_file.
  - apply Hrest.
  - apply Hrest.
Qed.

Lemma synchronize_directories_completes od sn (courses : list course) w0 :
  Forall has_coursename courses →
  can_descend (od ++ [sn]) (fs w0) = true →
  ∃ w', synchronize_directories od sn courses w0 = (Ok (), w').
Proof.
  intros Hall Hcd.
  pose proof (synchronize_directories_run od sn courses w0) as Hrun.
  destruct (synchronize_directories od sn courses w0) as [[[]|e] w']; [eauto|].
  destruct Hrun as [_ [?|?]]; [done|congruence].
Qed.

Lemma provisioned_not_empty c : provisioned c ≠ Dir ∅.
Proof. unfold provisioned. intros [=]. Qed.

(** What a completed run leaves at each entry of the semester folder. *)
Lemma synchronize_directories_entries od sn (courses : list course) w0 w' :
  synchronize_directories od sn courses w0 = (Ok (), w') →
  let entry x w := lookup_path ((od ++ [sn]) ++ [x]) (fs w) in
  (∀ x, x ∈ coursenames courses → entry x w0 ≠ None → entry x w' = entry x w0) ∧
  (∀ x, x ∈ coursenames courses → entry x w0 = None →
        ∃ c, c ∈ courses ∧ assoc "coursename" c = Some x
             ∧ entry x w' = Some (provisioned c)) ∧
  (∀ x, x ∉ coursenames courses → entry x w0 = Some (Dir ∅) →
        entry x w' = None) ∧
  (∀ x, x ∉ coursenames courses → entry x w0 ≠ Some (Dir ∅) →
        entry x w' = entry x w0) ∧
  (∀ x cs, x ∉ coursenames courses → entry x w0 = Some (Dir cs) → cs ≠ ∅ →
           not_deleted_message x ∈ stdout w').
Proof.
  intros Hrun entry. subst entry. cbv beta.
  pose proof (synchronize_directories_run od sn courses w0) as H.
  rewrite Hrun in H. destruct H as (Hall & w1 & H1 & H2).
  assert (∀ x, x ∈ coursenames courses →
    lookup_path ((od ++ [sn]) ++ [x]) (fs w')
    = lookup_path ((od ++ [sn]) ++ [x]) (fs w1)) as Hin.
  { intros x Hx. by destruct (deleted_entries _ _ _ _ _ H2 x) as [?|(_ & ? & _)]. }
  assert (∀ x, x ∉ coursenames courses →
    lookup_path ((od ++ [sn]) ++ [x]) (fs w1)
    = lookup_path ((od ++ [sn]) ++ [x]) (fs w0)) as Hout.
  { intros x Hx.
    destruct (created_entries _ _ _ _ H1 x) as [?|(_ & c & ? & ? & _)]; [done|].
    destruct Hx. apply elem_of_coursenames. eauto. }
  split_and!.
  - intros x Hx H0. rewrite (Hin x Hx).
    by destruct (created_entries _ _ _ _ H1 x) as [?|(? & _)].
  - intros x Hx H0. rewrite (Hin x Hx).
    destruct (created_entries _ _ _ _ H1 x) as [Heq|(_ & c & ? & ? & ?)]; [|eauto].
    destruct (created_names _ _ _ _ H1 x Hx) as [nx Hnx]. congruence.
  - intros x Hx H0. apply (deleted_empty _ _ _ _ _ H2); [|done|].
    + apply elem_of_existing_of. by rewrite H0.
    + by rewrite Hout.
  - intros x Hx H0. rewrite <- (Hout x Hx).
    destruct (deleted_entries _ _ _ _ _ H2 x) as [?|(_ & _ & Hd & _)]; [done|].
    rewrite (Hout x Hx) in Hd. done.
  - intros x cs Hx H0 Hcs. apply (deleted_diagnostic _ _ _ _ _ H2 x cs); try done.
    + apply elem_of_existing_of. by rewrite H0.
    + by rewrite Hout.
Qed.










Lemma lookup_path_prefix_dir p q n :
  q `prefix_of` p → is_dir (lookup_path p n) = true →
  is_dir (lookup_path q n) = true.
Proof.
  intros [k ->]. rewrite lookup_path_app.
  destruct (lookup_path q n) as [[d|cs]|]; try done.
  by destruct k.
Qed.




(** C6: when the semester path does not exist, the scan returns the empty
    list and raises nothing, the run goes on as the run over no existing
    folder, and it deletes nothing. *)
Theorem missing_semester_path od sn (courses : list course) w :
  lookup_path (os_path_join od sn) (fs w) = None →
  get_existing_directories (os_path_join od sn) w = (Ok [], w) ∧
  synchronize_directories od sn courses w =
    (course_names ←
       comprehension (λ course, course_getitem course "coursename") courses;
     create_new_courses (os_path_join od sn) [] courses ;;
     delete_old_courses (os_path_join od sn) [] course_names) w ∧
  ∃ new, calls (synchronize_directories od sn courses w).2 = calls w ++ new
         ∧ Forall (λ op, is_rmtree op = false) new.
Proof.
  intros Hsem.
  assert (existing_of (os_path_join od sn) (fs w) = []) as Hex.
  { unfold existing_of. by rewrite Hsem. }
  assert (get_existing_directories (os_path_join od sn) w = (Ok [], w)) as Hget.
  { by rewrite get_existing_directories_run, Hsem, Hex. }
  split_and!; [done| |].
  - unfold synchronize_directories. cbv zeta. by rewrite bind_run, Hget.
  - pose proof (synchronize_directories_run od sn courses w) as Hrun.
    unfold os_path_join in Hex.
    destruct (synchronize_directories od sn courses w) as [[[]|e] w'];
      cbn [snd].
    2:{ destruct Hrun as [-> _]. exists []. by rewrite app_nil_r. }
    destruct Hrun as (_ & w1 & H1 & H2).
    destruct (created_calls _ _ _ _ H1) as (new1 & Hc1 & Hn1 & _).
    destruct (deleted_calls _ _ _ _ _ H2) as (new2 & Hc2 & Hn2 & _).
    destruct new2 as [|op2 new2].
    + exists new1. by rewrite Hc2, app_nil_r.
    + apply Forall_cons in Hn2 as [(x & _ & Hx & _) _].
      rewrite Hex in Hx. by apply elem_of_nil in Hx.
Qed.

Lemma missing_semester_path_witness :
  get_existing_directories ["OneDrive"; "Fall 2024"] sample_world
    = (Ok [], sample_world) ∧
  ∃ new, calls sample_fall = calls sample_world ++ new
         ∧ Forall (λ op, is_rmtree op = false) new.
Proof.
  destruct (missing_semester_path ["OneDrive"] "Fall 2024" sample_courses
              sample_world) as (H1 & _ & H2); [reflexivity|].
  by split.
Defined.

(** ** FolderProvisioner: the contract *)

Lemma string_app_cons ch (a b : string) :
  String ch a +:+ b = String ch (a +:+ b).
Proof. reflexivity. Qed.







(** ** Archiving: [os.walk] *)

Section walk.
Implicit Types (p q root : path) (n : node) (cs : gmap string node).

Lemma depth_child cs x c : cs !! x = Some c → depth c < depth (Dir cs).
Proof.
  intros Hx.
  cut (depth c ≤ map_fold (λ _ c' acc, max (depth c') acc) 0 cs).
  { simpl. lia. }
  revert x c Hx.
  apply (map_fold_weak_ind
           (λ r m, ∀ x c, m !! x = Some c → depth c ≤ r)).
  - intros x c. by rewrite lookup_empty.
  - intros i c' m r Hi IH x c. rewrite lookup_insert.
    case_decide; [intros [= <-]; lia|].
    intros Hx. specialize (IH x c Hx). lia.
Qed.

(** Induction on the tree: a directory from the nodes it holds. *)
Lemma node_children_ind (P : node → Prop) :
  (∀ d, P (File d)) →
  (∀ cs, (∀ x c, cs !! x = Some c → P c) → P (Dir cs)) →
  ∀ n, P n.
Proof.
  intros Hfile Hdir n. remember (depth n) as k eqn:Hk. revert n Hk.
  induction k as [k IH] using lt_wf_ind. intros [d|cs] Hk; [apply Hfile|].
  apply Hdir. intros x c Hx. apply (IH (depth c)); [|done].
  subst k. by eapply depth_child.
Qed.

Lemma walk_files_app (a b : list (path * list string * list string)) :
  walk_files (a ++ b) = walk_files a ++ walk_files b.
Proof. apply flat_map_app. Qed.

Lemma elem_of_filenames_of cs f :
  f ∈ filenames_of cs ↔ ∃ d, cs !! f = Some (File d).
Proof.
  unfold filenames_of. rewrite list_elem_of_fmap. split.
  - intros ([y c] & -> & [Hc Hin]%list_elem_of_filter).
    apply elem_of_map_to_list in Hin. simpl in *.
    destruct c as [d|]; [eauto|done].
  - intros [d Hd]. exists (f, File d). split; [done|].
    apply list_elem_of_filter. split; [done|]. by apply elem_of_map_to_list.
Qed.

(** The files of the walk of a directory: its own, and those of the
    walks of its entries. *)
Lemma elem_of_walk_files_dir root cs p :
  p ∈ walk_files (os_walk_node root (Dir cs)) ↔
  (∃ f d, cs !! f = Some (File d) ∧ p = root ++ [f]) ∨
  (∃ x c, cs !! x = Some c
          ∧ p ∈ walk_files (os_walk_node (root ++ [x]) c)).
Proof.
  simpl. change (walk_files (?t :: ?l)) with (walk_files [t] ++ walk_files l).
  rewrite elem_of_app. apply Morphisms_Prop.or_iff_morphism.
  - change (map ?g ?l) with (g <$> l). rewrite list_elem_of_fmap.
    unfold os_path_join. split.
    + intros (f & -> & [d Hd]%elem_of_filenames_of). eauto.
    + intros (f & d & Hd & ->). exists f. split; [done|].
      apply elem_of_filenames_of. eauto.
  - unfold os_path_join.
    apply (map_fold_weak_ind
             (λ r m, p ∈ walk_files r ↔
                     ∃ x c, m !! x = Some c
                            ∧ p ∈ walk_files (os_walk_node (root ++ [x]) c))).
    + split; [by intros ?%elem_of_nil|].
      intros (x & c & Hx & _). by rewrite lookup_empty in Hx.
    + intros i c' m r Hi IH. rewrite walk_files_app, elem_of_app, IH. split.
      * intros [?|(x & c & Hx & ?)].
        -- exists i, c'. by rewrite lookup_insert_eq.
        -- exists x, c. rewrite lookup_insert_ne; [done|]. congruence.
      * intros (x & c & Hx & Hp). rewrite lookup_insert in Hx.
        case_decide; simplify_eq; eauto.
Qed.

(** The walk hands over exactly the regular files under the top. *)
Lemma elem_of_walk_files n :
  ∀ root p,
  p ∈ walk_files (os_walk_node root n) ↔
  ∃ q d, q ≠ [] ∧ p = root ++ q ∧ lookup_path q n = Some (File d).
Proof.
  induction n as [d|cs IH] using node_children_ind; intros root p.
  { split; [by intros ?%elem_of_nil|].
    intros (q & d' & Hq & _ & Hl). by destruct q. }
  rewrite elem_of_walk_files_dir. split.
  - intros [(f & d & Hf & ->)|(x & c & Hx & Hp)].
    + exists [f], d. split_and!; [done..|]. simpl. by rewrite Hf.
    + apply (IH x c Hx) in Hp as (q & d & Hq & -> & Hl).
      exists (x :: q), d. split_and!; [done|by rewrite <- app_assoc|].
      simpl. by rewrite Hx.
  - intros (q & d & Hq & -> & Hl). destruct q as [|x q]; [done|].
    simpl in Hl. destruct (cs !! x) as [c|] eqn:Hx; [|done].
    destruct q as [|y q].
    + left. simpl in Hl. simplify_eq. eauto.
    + right. exists x, c. split; [done|]. apply (IH x c Hx).
      exists (y :: q), d. split_and!; [done| |done].
      by rewrite <- app_assoc.
Qed.
End walk.

(** ** Archiving: paths *)

Section paths.
Implicit Types (p q s acc : path).

Lemma prefix_or_diverge p q :
  p `prefix_of` q ∨ q `prefix_of` p ∨ diverge p q.
Proof.
  revert q. induction p as [|x p IH]; intros q.
  { left. apply prefix_nil. }
  destruct q as [|y q]; [right; left; apply prefix_nil|].
  destruct (decide (x = y)) as [->|Hxy].
  - destruct (IH q) as [?|[?|(r & a & b & p1 & q1 & -> & -> & ?)]].
    + left. by apply prefix_cons.
    + right; left. by apply prefix_cons.
    + right; right. by exists (y :: r), a, b, p1, q1.
  - right; right. by exists [], x, y, p, q.
Qed.

Lemma normpath_go_plain acc p :
  Forall plain_name p → normpath_go acc p = rev acc ++ p.
Proof.
  intros Hp. revert acc.
  induction Hp as [|x p (H1 & H2 & H3) _ IH]; intros acc; simpl.
  { by rewrite app_nil_r. }
  rewrite bool_decide_eq_false_2 by (by intros [?|?]).
  rewrite bool_decide_eq_false_2 by done.
  rewrite IH. simpl. by rewrite <- app_assoc.
Qed.

Lemma normpath_go_app acc p q :
  Forall plain_name p →
  normpath_go acc (p ++ q) = normpath_go (rev p ++ acc) q.
Proof.
  intros Hp. revert acc.
  induction Hp as [|x p (H1 & H2 & H3) _ IH]; intros acc; simpl; [done|].
  rewrite bool_decide_eq_false_2 by (by intros [?|?]).
  rewrite bool_decide_eq_false_2 by done.
  rewrite IH. by rewrite <- app_assoc.
Qed.

Lemma commonprefix_length_app s q : commonprefix_length s (s ++ q) = length s.
Proof.
  induction s as [|x s IH]; simpl; [by destruct q|].
  by rewrite bool_decide_eq_true_2, IH.
Qed.

(** The archive name of a file of the source folder: the folder's own
    name, then the way down from it. *)
Lemma relpath_from_parent s b q :
  Forall plain_name (s ++ b :: q) →
  os_path_relpath ((s ++ [b]) ++ q) (os_path_join (s ++ [b]) "..") = b :: q.
Proof.
  intros Hp. unfold os_path_relpath, os_path_normpath, os_path_join.
  assert (Forall plain_name (s ++ [b])) as Hsb.
  { apply Forall_app in Hp as [? [? _]%Forall_cons].
    apply Forall_app. split; [done|]. by constructor. }
  rewrite (normpath_go_app [] (s ++ [b]) [".."]) by done.
  rewrite app_nil_r, rev_unit. simpl.
  rewrite rev_involutive.
  rewrite normpath_go_plain by (by rewrite <- app_assoc).
  simpl. rewrite <- app_assoc. simpl.
  by rewrite commonprefix_length_app, Nat.sub_diag, drop_app_length.
Qed.
End paths.

(** ** Archiving: [archive_directory] *)

Section archiving.
Implicit Types (p q zip : path) (w : world).

Lemma for_each_app {A} (l k : list A) body w :
  for_each (l ++ k) body w =
    match for_each l body w with
    | (Ok _, w') => for_each k body w'
    | (Raise e, w') => (Raise e, w')
    end.
Proof.
  revert w. induction l as [|x l IH]; intros w; [done|].
  rewrite <- app_comm_cons, !for_each_cons.
  destruct (body x w) as [[[]|e] w']; [apply IH|done].
Qed.

Lemma for_each_map {A B} (g : A → B) (l : list A) body w :
  for_each (map g l) body w = for_each l (λ x, body (g x)) w.
Proof.
  revert w. induction l as [|x l IH]; intros w; [done|].
  simpl map. rewrite !for_each_cons.
  destruct (body (g x) w) as [[[]|e] w']; [apply IH|done].
Qed.

(** The two nested loops of the archiver are one loop over the files of
    the walk. *)
Lemma for_each_walk (walk : list (path * list string * list string))
    (body : path → M unit) w :
  for_each walk (λ '(root, dirs, files),
    for_each files (λ file, body (os_path_join root file))) w
  = for_each (walk_files walk) body w.
Proof.
  revert w. induction walk as [|[[root dirs] files] walk IH]; intros w; [done|].
  rewrite for_each_cons.
  change (walk_files ((root, dirs, files) :: walk))
    with (map (os_path_join root) files ++ walk_files walk).
  rewrite for_each_app, for_each_map.
  destruct (for_each files _ w) as [[[]|e] w']; [apply IH|done].
Qed.

Lemma zip_write_run zip src arcname w d :
  lookup_path src (fs w) = Some (File d) →
  zip_write zip src arcname w
  = mutate (ZipWrite src arcname) false (zip_add_entry arcname d) zip w.
Proof. intros H. unfold zip_write. by rewrite H. Qed.

(** The writes into an open archive, of files that lie beside it. *)
Lemma zip_writes_run a z (arc : path → path) srcs :
  ∀ w ms,
  lookup_path (a ++ [z]) (fs w) = Some (File (Zip ms)) →
  Forall (λ src, diverge (a ++ [z]) src
                 ∧ is_file (lookup_path src (fs w)) = true) srcs →
  ∃ n',
    for_each srcs (λ src, zip_write (a ++ [z]) src (arc src)) w
    = (Ok (), World n' (stdout w)
         (calls w ++ map (λ src, ZipWrite src (arc src)) srcs)) ∧
    lookup_path (a ++ [z]) n'
    = Some (File (Zip (ms ++ map (λ src,
               (arc src, file_content (lookup_path src (fs w)))) srcs))) ∧
    ∀ q, diverge (a ++ [z]) q → lookup_path q n' = lookup_path q (fs w).
Proof.
  induction srcs as [|src srcs IH]; intros w ms Hzip Hsrcs.
  { exists (fs w). simpl. rewrite !app_nil_r. by destruct w. }
  apply Forall_cons in Hsrcs as [[Hdiv Hfile] Hsrcs].
  destruct (lookup_path src (fs w)) as [[d|]|] eqn:Hsrc; try done.
  rewrite for_each_cons, (zip_write_run _ _ _ _ d Hsrc), mutate_run.
  pose proof Hzip as Ha. rewrite lookup_path_snoc in Ha.
  destruct (lookup_path a (fs w)) as [[|csa]|] eqn:Hcsa; try done.
  destruct (update_snoc_ok false (zip_add_entry (arc src) d) a z (fs w) csa
              (Some (File (Zip (ms ++ [(arc src, d)])))))
    as [n1 Hn1]; [done|by rewrite Ha|].
  rewrite Hn1.
  pose proof (update_snoc_entry _ _ _ _ _ _ Hn1) as He.
  rewrite Hzip in He. simpl in He. injection He as He.
  destruct (update_snoc _ _ _ _ _ _ Hn1) as (_ & _ & _ & _ & _ & Hfr).
  destruct (IH (World n1 (stdout w) (calls w ++ [ZipWrite src (arc src)]))
              (ms ++ [(arc src, d)])) as (n' & Hrun & Hzip' & Hfr').
  { by rewrite He. }
  { eapply Forall_impl; [exact Hsrcs|]. intros src' [Hd Hf]. split; [done|].
    cbn [fs]. by rewrite Hfr. }
  exists n'. split_and!.
  - rewrite Hrun. cbn [fs stdout calls]. simpl map.
    by rewrite <- app_assoc.
  - rewrite Hzip'. cbn [fs]. simpl map. rewrite Hsrc. cbn [file_content].
    replace (map (λ src0, (arc src0, file_content (lookup_path src0 n1))) srcs)
      with (map (λ src0, (arc src0, file_content (lookup_path src0 (fs w))))
              srcs); [by rewrite <- app_assoc|].
    apply map_ext_Forall. eapply Forall_impl; [exact Hsrcs|].
    intros src' [Hd Hf]. simpl. by rewrite Hfr.
  - intros q Hq. rewrite Hfr' by done. cbn [fs]. by apply Hfr.
Qed.
End archiving.

Lemma archive_loop zip dir_path
    (walk : list (path * list string * list string)) w :
  for_each walk (λ '(root, dirs, files),
    for_each files (λ file,
      zip_write zip (os_path_join root file)
        (os_path_relpath (os_path_join root file)
                         (os_path_join dir_path "..")))) w
  = for_each (walk_files walk)
      (λ src, zip_write zip src
                (os_path_relpath src (os_path_join dir_path ".."))) w.
Proof.
  apply (for_each_walk walk
           (λ src, zip_write zip src
                     (os_path_relpath src (os_path_join dir_path "..")))).
Qed.

(** The archive lies beside every path of the source folder. *)
Lemma archive_beside_source dir_path archive_path name n cs :
  lookup_path dir_path n = Some (Dir cs) →
  is_dir (lookup_path (archive_path ++ [name]) n) = false →
  ¬ dir_path `prefix_of` archive_path →
  ∀ q, diverge (archive_path ++ [name]) (dir_path ++ q).
Proof.
  intros Hsrc Hzip Hout.
  assert (¬ archive_path ++ [name] `prefix_of` dir_path) as Hzd.
  { intros Hp. apply (lookup_path_prefix_dir _ _ n) in Hp; [congruence|].
    by rewrite Hsrc. }
  assert (¬ dir_path `prefix_of` archive_path ++ [name]) as Hdz.
  { intros [k Hk]. destruct k as [|y k _] using rev_ind.
    - rewrite app_nil_r in Hk. apply Hzd. by rewrite Hk.
    - rewrite app_assoc in Hk. apply app_inj_tail in Hk as [-> _].
      apply Hout. by exists k. }
  intros q.
  destruct (prefix_or_diverge (archive_path ++ [name]) (dir_path ++ q))
    as [Hp|[Hp|?]]; [| |done].
  - destruct (prefix_weak_total (archive_path ++ [name]) dir_path
                (dir_path ++ q)); [done|by apply prefix_app_r|done..].
  - destruct Hdz. etrans; [|exact Hp]. by apply prefix_app_r.
Qed.

(** C8: archiving a source folder writes one zip archive, named
    after the folder, into the archive directory; its members are exactly
    the regular files under the source folder, at every depth, each with its
    content and under its path relative to the parent of the source folder,
    which starts with the folder's own name; nothing beside the archive
    changes.  (The source folder is a directory, the archive directory
    exists and does not lie in the source folder, and no directory bears the
    archive's name.) *)
Theorem archive_directory_contents dir_path archive_path w cs :
  lookup_path dir_path (fs w) = Some (Dir cs) →
  is_dir (lookup_path archive_path (fs w)) = true →
  ¬ dir_path `prefix_of` archive_path →
  is_dir (lookup_path
            (os_path_join archive_path (os_path_basename dir_path +:+ ".zip"))
            (fs w)) = false →
  ∃ w' members,
    archive_directory dir_path archive_path w = (Ok (), w') ∧
    lookup_path
      (os_path_join archive_path (os_path_basename dir_path +:+ ".zip")) (fs w')
    = Some (File (Zip members)) ∧
    (∀ arcname d,
       (arcname, d) ∈ members ↔
       ∃ q, arcname = os_path_relpath (dir_path ++ q) (os_path_join dir_path "..")
            ∧ lookup_path (dir_path ++ q) (fs w) = Some (File d)) ∧
    (∀ q, dir_path ≠ [] → Forall plain_name (dir_path ++ q) →
          os_path_relpath (dir_path ++ q) (os_path_join dir_path "..")
          = os_path_basename dir_path :: q) ∧
    (∀ q, diverge
            (os_path_join archive_path (os_path_basename dir_path +:+ ".zip")) q →
          lookup_path q (fs w') = lookup_path q (fs w)) ∧
    ∃ writes,
      calls w'
      = calls w
        ++ ZipOpen (os_path_join archive_path
                      (os_path_basename dir_path +:+ ".zip")) :: writes
      ∧ Forall (λ op, ∃ src arcname, op = ZipWrite src arcname) writes.
Proof.
  unfold os_path_join at 1 2 4 5.
  set (name := os_path_basename dir_path +:+ ".zip").
  intros Hsrc Harch Hout Hzip.
  pose proof (archive_beside_source _ _ _ _ _ Hsrc Hzip Hout) as Hdiv.
  (* opening the archive *)
  destruct (lookup_path archive_path (fs w)) as [[|csa]|] eqn:Hcsa; try done.
  assert (∃ o, zip_open_entry (csa !! name) = Ok o) as [o Ho].
  { rewrite lookup_path_snoc, Hcsa in Hzip.
    destruct (csa !! name) as [[|]|]; simpl; eauto. done. }
  destruct (update_snoc_ok false zip_open_entry archive_path name (fs w) csa o)
    as [n1 Hn1]; [done..|].
  pose proof (update_snoc_entry _ _ _ _ _ _ Hn1) as He.
  assert (lookup_path (archive_path ++ [name]) n1 = Some (File (Zip []))) as Hz1.
  { destruct (lookup_path (archive_path ++ [name]) (fs w)) as [[|]|];
      simpl in He; by simplify_eq. }
  destruct (update_snoc _ _ _ _ _ _ Hn1) as (_ & _ & _ & _ & _ & Hfr1).
  (* the walk of the source folder, which the opening left alone *)
  assert (∀ q, lookup_path (dir_path ++ q) n1 = lookup_path (dir_path ++ q) (fs w))
    as Hsame by (intros q; apply Hfr1, Hdiv).
  assert (lookup_path dir_path n1 = Some (Dir cs)) as Hsrc1.
  { specialize (Hsame []). by rewrite app_nil_r, Hsrc in Hsame. }
  set (arc := λ src : path,
         os_path_relpath src (os_path_join dir_path "..")).
  set (srcs := walk_files (os_walk_node dir_path (Dir cs))).
  assert (∀ src, src ∈ srcs ↔
    ∃ q d, src = dir_path ++ q ∧ lookup_path src (fs w) = Some (File d))
    as Hsrcs.
  { intros src. unfold srcs. rewrite elem_of_walk_files. split.
    - intros (q & d & _ & -> & Hq). exists q, d. split; [done|].
      by rewrite lookup_path_app, Hsrc.
    - intros (q & d & -> & Hq). exists q, d.
      rewrite lookup_path_app, Hsrc in Hq. split_and!; [|done..].
      intros ->. done. }
  destruct (zip_writes_run archive_path name arc srcs
              (World n1 (stdout w) (calls w ++ [ZipOpen (archive_path ++ [name])]))
              [] Hz1) as (n' & Hrun & Hz' & Hfr').
  { apply Forall_forall. intros src (q & d & -> & Hq)%Hsrcs. split; [done|].
    cbn [fs]. by rewrite Hsame, Hq. }
  cbn [fs stdout calls] in *.
  eexists _, _. split_and!.
  - unfold archive_directory. cbv zeta.
    change (os_path_join archive_path (os_path_basename dir_path +:+ ".zip"))
      with (archive_path ++ [name]).
    rewrite bind_run. unfold zip_open. rewrite mutate_run, Hn1, bind_run.
    unfold os_walk, read. cbn [fs]. rewrite Hsrc1.
    rewrite bind_run, archive_loop. fold srcs.
    change (λ src : path, zip_write (archive_path ++ [name]) src
              (os_path_relpath src (os_path_join dir_path "..")))
      with (λ src : path, zip_write (archive_path ++ [name]) src (arc src)).
    rewrite Hrun. unfold print. reflexivity.
  - cbn [fs]. exact Hz'.
  - intros arcname d. simpl app.
    change (map ?g ?l) with (g <$> l). rewrite list_elem_of_fmap. split.
    + intros (src & [= -> Hd] & (q & d' & -> & Hq)%Hsrcs).
      exists q. split; [done|]. rewrite Hq. rewrite Hsame, Hq in Hd.
      by rewrite Hd.
    + intros (q & -> & Hq). exists (dir_path ++ q). split.
      * by rewrite Hsame, Hq.
      * apply Hsrcs. eauto.
  - intros q Hne Hplain.
    destruct dir_path as [|b s _] using rev_ind; [done|].
    unfold os_path_basename. rewrite last_snoc. simpl.
    apply relpath_from_parent. by rewrite <- app_assoc in Hplain.
  - intros q Hq. cbn [fs]. rewrite Hfr' by done. by apply Hfr1.
  - cbn [calls]. eexists. rewrite <- app_assoc. split; [reflexivity|].
    apply Forall_forall. intros op. change (map ?g ?l) with (g <$> l).
    intros (src & -> & _)%list_elem_of_fmap. eauto.
Qed.

Lemma archive_directory_contents_witness :
  ∃ members,
    lookup_path ["Volumes"; "Austin Disk"; "UT Austin"; "Spring 2024.zip"]
      (fs sample_archived) = Some (File (Zip members)) ∧
    (["Spring 2024"; "CS314"; "hw1.txt"], Text "due Friday") ∈ members ∧
    (["Spring 2024"; "todo.txt"], Text "buy books") ∈ members.
Proof.
  edestruct (archive_directory_contents ["OneDrive"; "Spring 2024"]
               main_archive_path sample_world)
    as (w' & members & Hrun & Hzip & Hmem & _).
  - vm_compute. reflexivity.
  - reflexivity.
  - by intros [k [=]].
  - reflexivity.
  - exists members. unfold sample_archived. rewrite Hrun. split_and!.
    + exact Hzip.
    + apply Hmem. exists ["CS314"; "hw1.txt"]. by split.
    + apply Hmem. exists ["todo.txt"]. by split.
Defined.

(** * Further properties of ClassSetup.py *)

(** ** When a run raises *)

Lemma update_blocked parents f s x n :
  can_descend s n = false →
  update parents f (s ++ [x]) n = Raise NotADirectoryError.
Proof.
  revert n. induction s as [|y s IH]; intros [d|cs] Hcd; try done.
  simpl in Hcd. change ((y :: s) ++ [x]) with (y :: (s ++ [x])).
  rewrite update_cons by (by destruct s).
  destruct (cs !! y) as [c|]; [|done]. by rewrite IH.
Qed.

(** The run, laid out step by step. *)
Lemma synchronize_directories_unfold od sn (courses : list course) w :
  synchronize_directories od sn courses w =
    if is_file (lookup_path (od ++ [sn]) (fs w))
    then (Raise NotADirectoryError, w)
    else if bool_decide (Forall has_coursename courses)
    then
      match create_new_courses (od ++ [sn]) (existing_of (od ++ [sn]) (fs w))
              courses w with
      | (Ok _, w1) =>
          delete_old_courses (od ++ [sn]) (existing_of (od ++ [sn]) (fs w))
            (coursenames courses) w1
      | (Raise e, w1) => (Raise e, w1)
      end
    else (Raise (KeyError "coursename"), w).
Proof.
  unfold synchronize_directories, os_path_join. cbv zeta.
  rewrite bind_run, get_existing_directories_run.
  assert (
    (comprehension (λ course, course_getitem course "coursename") courses
     ≫= λ course_names,
       create_new_courses (od ++ [sn]) (existing_of (od ++ [sn]) (fs w)) courses ;;
       delete_old_courses (od ++ [sn]) (existing_of (od ++ [sn]) (fs w))
         course_names) w
    = if bool_decide (Forall has_coursename courses)
      then
        match create_new_courses (od ++ [sn]) (existing_of (od ++ [sn]) (fs w))
                courses w with
        | (Ok _, w1) =>
            delete_old_courses (od ++ [sn]) (existing_of (od ++ [sn]) (fs w))
              (coursenames courses) w1
        | (Raise e, w1) => (Raise e, w1)
        end
      else (Raise (KeyError "coursename"), w)) as Hrest.
  { rewrite bind_run, coursenames_run.
    change (Forall has_coursename courses)
      with (Forall (λ c : course, is_Some (assoc "coursename" c)) courses).
    destruct (bool_decide (Forall _ courses)); [|done].
    rewrite bind_run.
    by destruct (create_new_courses _ _ _ _) as [[[]|e] w1]. }
  destruct (lookup_path (od ++ [sn]) (fs w)) as [[d|cs]|]; simpl; done.
Qed.



(** X2: one record without the field [coursename] makes the whole run
    raise [KeyError] before anything is done, also for the records before
    it: nothing is created, deleted or printed (the semester path not being
    a regular file, which raises first). *)
Theorem synchronize_directories_missing_coursename od sn
    (courses : list course) w0 :
  Exists (λ c, assoc "coursename" c = None) courses →
  is_file (lookup_path (os_path_join od sn) (fs w0)) = false →
  synchronize_directories od sn courses w0
  = (Raise (KeyError "coursename"), w0).
Proof.
  intros Hex Hf. unfold os_path_join in Hf.
  rewrite synchronize_directories_unfold, Hf.
  rewrite bool_decide_eq_false_2; [done|].
  intros Hall. apply Exists_exists in Hex as (c & Hc & Hnone).
  rewrite Forall_forall in Hall. destruct (Hall c Hc) as [x Hx]. congruence.
Qed.

Lemma synchronize_directories_missing_coursename_witness :
  synchronize_directories ["OneDrive"] "Spring 2024"
    [[("coursename", "M408D")]; [("instructor", "Ng")]] sample_world
  = (Raise (KeyError "coursename"), sample_world).
Proof.
  apply synchronize_directories_missing_coursename; [|reflexivity].
  apply Exists_cons_tl, Exists_cons_hd. reflexivity.
Defined.

Lemma synchronize_directories_completion od sn (courses : list course) w0 :
  (∃ w', synchronize_directories od sn courses w0 = (Ok (), w')) ↔
  Forall has_coursename courses ∧
  is_file (lookup_path (os_path_join od sn) (fs w0)) = false ∧
  (courses = [] ∨ can_descend (os_path_join od sn) (fs w0) = true).
Proof.
  unfold os_path_join. split.
  - intros [w' Hrun]. rewrite synchronize_directories_unfold in Hrun.
    destruct (is_file _) eqn:Hf; [done|].
    case_bool_decide as Hall; [|done]. split_and!; [done..|].
    destruct courses as [|c cs]; [by left|right].
    destruct (can_descend (od ++ [sn]) (fs w0)) eqn:Hcd; [done|exfalso].
    apply Forall_cons in Hall as [[x Hc] _].
    assert (lookup_path (od ++ [sn]) (fs w0) = None) as Hsem.
    { destruct (lookup_path (od ++ [sn]) (fs w0)) as [[d|csem]|] eqn:Hs;
        try done.
      rewrite can_descend_dir in Hcd; [done|]. by rewrite Hs. }
    rewrite create_new_courses_cons, Hc in Hrun.
    rewrite bool_decide_eq_false_2 in Hrun.
    2:{ rewrite elem_of_existing_of, lookup_path_snoc, Hsem. done. }
    rewrite (create_folder_raise _ _ _ NotADirectoryError) in Hrun; [done| |].
    + by rewrite lookup_path_snoc, Hsem.
    + by apply update_blocked.
  - intros (Hall & Hf & [->|Hcd]).
    + rewrite synchronize_directories_unfold, Hf. simpl.
      destruct (delete_old_courses_run (od ++ [sn]) (coursenames []) w0
                  (existing_of (od ++ [sn]) (fs w0)) [] w0)
        as (w' & Hrun & _).
      * apply deleted_from_start.
      * apply NoDup_existing_of.
      * apply Forall_forall. by intros x Hx%elem_of_existing_of.
      * exists w'. exact Hrun.
    + by apply synchronize_directories_completes.
Qed.


(** ** What a run leaves alone *)










(** X7: every deletion a run logs is of an entry of the semester
    folder that was an empty directory when the run began and whose name is
    not in the schedule: a run never deletes a directory that holds
    anything, nor one that bears a course name. *)
Theorem only_empty_unscheduled_deleted od sn (courses : list course) w0 :
  ∃ new,
    calls (synchronize_directories od sn courses w0).2 = calls w0 ++ new ∧
    ∀ p, RmTree p ∈ new →
         ∃ x, p = course_folder od sn x ∧ (x ∉ coursenames courses) ∧
              lookup_path p (fs w0) = Some (Dir ∅).
Proof.
  pose proof (synchronize_directories_run od sn courses w0) as Hrun.
  destruct (synchronize_directories od sn courses w0) as [[[]|e] w'];
    cbn [snd].
  2:{ destruct Hrun as [-> _]. exists []. split; [by rewrite app_nil_r|].
      by intros p ?%elem_of_nil. }
  destruct Hrun as (_ & w1 & H1 & H2).
  destruct (created_calls _ _ _ _ H1) as (new1 & Hc1 & Hn1 & _).
  destruct (deleted_calls _ _ _ _ _ H2) as (new2 & Hc2 & Hn2 & _).
  exists (new1 ++ new2). split; [by rewrite Hc2, Hc1, app_assoc|].
  intros p [Hp|Hp]%elem_of_app.
  { rewrite Forall_forall in Hn1. by apply Hn1 in Hp. }
  rewrite Forall_forall in Hn2.
  destruct (Hn2 _ Hp) as (x & [= ->] & _ & Hx & Hx1).
  exists x. split_and!; [done..|].
  destruct (created_entries _ _ _ _ H1 x) as [<-|(_ & c & _ & _ & Hc)]; [done|].
  exfalso. apply (provisioned_not_empty c). congruence.
Qed.

(** X8: with an empty schedule (the semester path not being a
    regular file) the run completes, creates nothing, removes every empty
    directory of the semester folder and leaves every other entry as it
    was. *)
Theorem empty_schedule_clears_empty_folders od sn w0 :
  is_file (lookup_path (os_path_join od sn) (fs w0)) = false →
  ∃ w', synchronize_directories od sn [] w0 = (Ok (), w') ∧
        (∀ x, lookup_path (course_folder od sn x) (fs w0) = Some (Dir ∅) →
              lookup_path (course_folder od sn x) (fs w') = None) ∧
        (∀ x, lookup_path (course_folder od sn x) (fs w0) ≠ Some (Dir ∅) →
              lookup_path (course_folder od sn x) (fs w')
              = lookup_path (course_folder od sn x) (fs w0)) ∧
        ∃ new, calls w' = calls w0 ++ new
               ∧ Forall (λ op, is_rmtree op = true) new.
Proof.
  intros Hf.
  destruct (proj2 (synchronize_directories_completion od sn [] w0))
    as [w' Hrun]; [by split_and!; [constructor|done|left]|].
  exists w'. split; [done|].
  destruct (synchronize_directories_entries _ _ _ _ _ Hrun)
    as (_ & _ & E3 & E4 & _).
  unfold course_folder, os_path_join.
  split_and!.
  - intros x. apply E3. by intros ?%elem_of_nil.
  - intros x. apply E4. by intros ?%elem_of_nil.
  - pose proof (synchronize_directories_run od sn [] w0) as H.
    rewrite Hrun in H. destruct H as (_ & w1 & H1 & H2).
    destruct (created_calls _ _ _ _ H1) as (new1 & Hc1 & _ & _ & Hne1).
    destruct new1 as [|op1 new1].
    2:{ destruct Hne1 as (x & Hx%elem_of_nil & _); done. }
    destruct (deleted_calls _ _ _ _ _ H2) as (new2 & Hc2 & Hn2 & _).
    exists new2. split; [by rewrite Hc2, Hc1, app_nil_r|].
    eapply Forall_impl; [exact Hn2|]. by intros op (x & -> & _).
Qed.

Lemma empty_schedule_clears_empty_folders_witness :
  ∃ w', synchronize_directories ["OneDrive"] "Spring 2024" [] sample_world
        = (Ok (), w') ∧
        lookup_path ["OneDrive"; "Spring 2024"; "OLD102"] (fs w') = None ∧
        lookup_path ["OneDrive"; "Spring 2024"; "CS314"] (fs w')
        = Some (Dir {[ "hw1.txt" := File (Text "due Friday") ]}).
Proof.
  destruct (empty_schedule_clears_empty_folders ["OneDrive"] "Spring 2024"
              sample_world) as (w' & Hrun & Hgone & Hkept & _); [reflexivity|].
  exists w'. split_and!; [done| |].
  - by apply (Hgone "OLD102").
  - transitivity (lookup_path (course_folder ["OneDrive"] "Spring 2024" "CS314")
                    (fs sample_world)); [|reflexivity].
    apply (Hkept "CS314"). by intros [=].
Defined.

(** ** The small filesystem helpers *)

(** X9: [is_directory_empty] never raises and changes nothing; it
    answers False exactly when something lies directly under the path, so
    it answers True for a directory without entries and also for a path
    that does not exist or is a regular file. *)
Theorem is_directory_empty_answer p w :
  ∃ b, is_directory_empty p w = (Ok b, w) ∧
       (b = false ↔ ∃ x, is_Some (lookup_path (os_path_join p x) (fs w))).
Proof.
  rewrite is_directory_empty_run. eexists. split; [reflexivity|].
  unfold os_path_join.
  destruct (lookup_path p (fs w)) as [[d|cs]|] eqn:Hp.
  - split; [done|]. intros [x Hx]. by rewrite lookup_path_snoc, Hp in Hx.
  - rewrite bool_decide_eq_false. split.
    + intros Hne. apply map_choose in Hne as (x & c & Hx).
      exists x. by rewrite lookup_path_snoc, Hp, Hx.
    + intros [x Hx] ->. rewrite lookup_path_snoc, Hp, lookup_empty in Hx.
      by destruct Hx.
  - split; [done|]. intros [x Hx]. by rewrite lookup_path_snoc, Hp in Hx.
Qed.

(** X10: [get_existing_directories] changes nothing; on a path that
    is a regular file it raises [NotADirectoryError] (only a missing path
    is guarded); otherwise it returns, without repeats, exactly the names of
    the directories lying directly under the path, regular files left
    out. *)
Theorem get_existing_directories_answer p w :
  (is_file (lookup_path p (fs w)) = true →
   get_existing_directories p w = (Raise NotADirectoryError, w)) ∧
  (is_file (lookup_path p (fs w)) = false →
   ∃ l, get_existing_directories p w = (Ok l, w) ∧ NoDup l ∧
        ∀ x, x ∈ l ↔ is_dir (lookup_path (os_path_join p x) (fs w)) = true).
Proof.
  rewrite get_existing_directories_run. split.
  - by destruct (lookup_path p (fs w)) as [[d|cs]|].
  - intros Hf. exists (existing_of p (fs w)). split_and!.
    + by destruct (lookup_path p (fs w)) as [[d|cs]|].
    + apply NoDup_existing_of.
    + intros x. apply elem_of_existing_of.
Qed.

Lemma get_existing_directories_answer_witness :
  get_existing_directories ["OneDrive"; "Spring 2024"; "todo.txt"] sample_world
    = (Raise NotADirectoryError, sample_world) ∧
  ∃ l, get_existing_directories ["OneDrive"; "Spring 2024"] sample_world
       = (Ok l, sample_world) ∧ NoDup l ∧ "OLD101" ∈ l ∧ "todo.txt" ∉ l.
Proof.
  split.
  - apply (proj1 (get_existing_directories_answer
                    ["OneDrive"; "Spring 2024"; "todo.txt"] sample_world)).
    reflexivity.
  - destruct (proj2 (get_existing_directories_answer
                       ["OneDrive"; "Spring 2024"] sample_world))
      as (l & Hl & Hnd & Hin); [reflexivity|].
    exists l. split_and!; [done..| |].
    + by apply Hin.
    + by intros ?%Hin.
Defined.




Lemma can_descend_missing s x n :
  lookup_path (s ++ [x]) n = None →
  can_descend (s ++ [x]) n = can_descend s n.
Proof.
  revert n. induction s as [|y s IH]; intros [d|cs]; simpl; try done.
  - by destruct (cs !! x).
  - destruct (cs !! y); [apply IH|done].
Qed.

(** X12: provisioning a folder on a path that does not exist because
    a regular file stands on the way raises [NotADirectoryError] and
    changes nothing: no directory is made, nothing is printed. *)
Theorem create_folder_with_info_blocked p (c : course) w :
  lookup_path p (fs w) = None → can_descend p (fs w) = false →
  create_folder_with_info p c w = (Raise NotADirectoryError, w).
Proof.
  intros Hp Hcd. apply create_folder_raise; [done|].
  destruct p as [|x s _] using rev_ind; [done|].
  apply update_blocked. by rewrite <- (can_descend_missing s x).
Qed.

Lemma create_folder_with_info_blocked_witness :
  create_folder_with_info ["OneDrive"; "Spring 2024"; "todo.txt"; "CS314"]
    [("coursename", "CS314")] sample_world
  = (Raise NotADirectoryError, sample_world).
Proof. by apply create_folder_with_info_blocked. Defined.

(** * Further properties of the selection prompts *)

Lemma select_directory_loop_cons {A} (directories : list A) c key keys :
  select_directory_loop directories c (key :: keys) =
    if is_confirm key then Some (py_getitem directories c)
    else if bool_decide (key = curses.KEY_UP) && bool_decide (c > 0)%Z
    then select_directory_loop directories (c - 1) keys
    else if bool_decide (key = curses.KEY_DOWN)
            && bool_decide (c < Z.of_nat (length directories) - 1)%Z
    then select_directory_loop directories (c + 1) keys
    else select_directory_loop directories c keys.
Proof. reflexivity. Qed.





Lemma select_directory_loop_empty {A} (keys : list Z) :
  select_directory_loop ([] : list A) 0 keys
  = if existsb is_confirm keys then Some (Raise IndexError) else None.
Proof.
  induction keys as [|key keys IH]; [done|]. simpl.
  destruct (is_confirm key); [done|]. simpl.
  by rewrite !andb_false_r.
Qed.

Lemma select_json_file_loop_empty (keys : list Z) :
  select_json_file_loop [] 0 keys
  = if existsb is_confirm keys then Some (Raise IndexError) else None.
Proof.
  induction keys as [|key keys IH]; [done|]. simpl.
  destruct (is_confirm key); [done|]. simpl.
  by rewrite !andb_false_r.
Qed.

(** X14: on an empty menu neither prompt has a way out: the arrows
    do nothing and the first confirming key raises [IndexError]; without a
    confirming key the prompt waits. *)
Theorem selection_prompt_empty_menu {A} (keys : list Z) :
  select_directory ([] : list A) keys
    = (if existsb is_confirm keys then Some (Raise IndexError) else None) ∧
  select_json_file [] keys
    = (if existsb is_confirm keys then Some (Raise IndexError) else None).
Proof.
  split; [apply select_directory_loop_empty|apply select_json_file_loop_empty].
Qed.

Lemma select_json_file_loop_cons (files : list pyval) c key keys :
  select_json_file_loop files c (key :: keys) =
    match render_names files with
    | Raise e => Some (Raise e)
    | Ok _ =>
        if is_confirm key then
          Some (match py_getitem files c with
                | Ok file => py_subscript file "download_url"
                | Raise e => Raise e
                end)
        else if bool_decide (key = curses.KEY_UP) && bool_decide (c > 0)%Z
        then select_json_file_loop files (c - 1) keys
        else if bool_decide (key = curses.KEY_DOWN)
                && bool_decide (c < Z.of_nat (length files) - 1)%Z
        then select_json_file_loop files (c + 1) keys
        else select_json_file_loop files c keys
    end.
Proof. reflexivity. Qed.

Lemma select_json_file_loop_raise (files : list pyval) c keys e :
  render_names files = Raise e →
  select_json_file_loop files c keys = Some (Raise e).
Proof. intros Hr. destruct keys; simpl; by rewrite Hr. Qed.

Lemma not_menu_key key :
  is_menu_key key = false →
  is_confirm key = false ∧ bool_decide (key = curses.KEY_UP) = false
  ∧ bool_decide (key = curses.KEY_DOWN) = false.
Proof.
  unfold is_menu_key. intros [[? ?]%orb_false_iff ?]%orb_false_iff. done.
Qed.

Lemma select_directory_loop_menu_keys {A} (directories : list A) keys :
  ∀ c, select_directory_loop directories c
         (filter (λ key, is_menu_key key = true) keys)
       = select_directory_loop directories c keys.
Proof.
  induction keys as [|key keys IH]; intros c; [done|].
  rewrite filter_cons. destruct (is_menu_key key) eqn:Hm.
  - rewrite decide_True by done. rewrite !select_directory_loop_cons.
    destruct (is_confirm key); [done|].
    destruct (_ && _); [apply IH|]. destruct (_ && _); apply IH.
  - rewrite decide_False by done. rewrite select_directory_loop_cons.
    apply not_menu_key in Hm as (-> & -> & ->). cbn [andb]. apply IH.
Qed.

Lemma select_json_file_loop_menu_keys (files : list pyval) keys :
  ∀ c, select_json_file_loop files c
         (filter (λ key, is_menu_key key = true) keys)
       = select_json_file_loop files c keys.
Proof.
  induction keys as [|key keys IH]; intros c; [done|].
  rewrite filter_cons. destruct (is_menu_key key) eqn:Hm.
  - rewrite decide_True by done. rewrite !select_json_file_loop_cons.
    destruct (render_names files); [|done].
    destruct (is_confirm key); [done|].
    destruct (_ && _); [apply IH|]. destruct (_ && _); apply IH.
  - rewrite decide_False by done. rewrite select_json_file_loop_cons, IH.
    apply not_menu_key in Hm as (-> & -> & ->). cbn [andb].
    destruct (render_names files) as [[]|e] eqn:Hr; [done|].
    by apply select_json_file_loop_raise.
Qed.

(** X15: the prompts react to four keys only, the two confirming
    keys and the two arrows: any other key, wherever it is typed, changes
    neither the item returned nor whether the prompt returns. *)
Theorem selection_prompt_ignores_other_keys {A} (directories : list A)
    (files : list pyval) (keys : list Z) :
  select_directory directories (filter (λ key, is_menu_key key = true) keys)
    = select_directory directories keys ∧
  select_json_file files (filter (λ key, is_menu_key key = true) keys)
    = select_json_file files keys.
Proof.
  split;
    [apply select_directory_loop_menu_keys|apply select_json_file_loop_menu_keys].
Qed.

Lemma select_json_file_loop_as_directory (files : list pyval) keys :
  render_names files = Ok () →
  ∀ c, select_json_file_loop files c keys =
       match select_directory_loop files c keys with
       | Some (Ok file) => Some (py_subscript file "download_url")
       | Some (Raise e) => Some (Raise e)
       | None => None
       end.
Proof.
  intros Hr. induction keys as [|key keys IH]; intros c; simpl; rewrite Hr.
  { done. }
  destruct (is_confirm key); [by destruct (py_getitem files c)|].
  destruct (_ && _); [apply IH|]. destruct (_ && _); apply IH.
Qed.

(** X16: when every entry of the listing has a [name], the JSON-file
    prompt is the directory prompt followed by the subscript
    [download_url]: it chooses the same entry for the same keys, waits when
    the other waits, and raises [KeyError] when the chosen entry has no
    [download_url]. *)
Theorem select_json_file_as_select_directory (files : list pyval) keys :
  render_names files = Ok () →
  select_json_file files keys =
    match select_directory files keys with
    | Some (Ok file) => Some (py_subscript file "download_url")
    | Some (Raise e) => Some (Raise e)
    | None => None
    end.
Proof. intros Hr. by apply select_json_file_loop_as_directory. Qed.

Lemma select_json_file_as_select_directory_witness :
  select_json_file [PDict [("name", PStr "a.json")]] [ord_newline]
  = Some (Raise (KeyError "download_url")).
Proof.
  by rewrite (select_json_file_as_select_directory
                [PDict [("name", PStr "a.json")]] [ord_newline]).
Defined.

(** * Further properties: the remote listing *)

Lemma str_endswith_unfold (s suffix : string) :
  str_endswith s suffix =
    if String.eqb s suffix then true
    else match s with
         | String _ s' => str_endswith s' suffix
         | EmptyString => false
         end.
Proof. by destruct s. Qed.

Lemma str_endswith_spec (s suffix : string) :
  str_endswith s suffix = true ↔ ∃ stem, s = stem +:+ suffix.
Proof.
  split.
  - induction s as [|ch s IH]; rewrite str_endswith_unfold.
    + destruct (String.eqb "" suffix) eqn:He; [|done].
      apply String.eqb_eq in He as <-. by exists "".
    + destruct (String.eqb (String ch s) suffix) eqn:He.
      * apply String.eqb_eq in He as <-. by exists "".
      * intros [stem ->]%IH. by exists (String ch stem).
  - intros [stem ->]. induction stem as [|ch stem IH];
      rewrite str_endswith_unfold.
    + change ("" +:+ suffix) with suffix. by rewrite String.eqb_refl.
    + rewrite string_app_cons, IH. by destruct (String.eqb _ suffix).
Qed.

Lemma json_files_returned (files l : list pyval) :
  json_files files = Returned l →
  sublist l files ∧
  (∀ file, file ∈ l ↔ file ∈ files ∧ has_json_name file) ∧
  (∀ file, file ∈ files → ∃ name, py_subscript file "name" = Ok (PStr name)).
Proof.
  revert l. induction files as [|file files IH]; intros l; simpl.
  { intros [= <-]. split_and!; [done| |by intros ? ?%elem_of_nil].
    intros file. split; [by intros ?%elem_of_nil|by intros [?%elem_of_nil _]]. }
  destruct (py_subscript file "name") as [[name|]|] eqn:Hname; try done.
  destruct (json_files files) as [l'|] eqn:Hrest; [|done].
  destruct (IH l' eq_refl) as (Hsub & Hin & Hnamed).
  intros [= <-]. split_and!.
  - destruct (str_endswith name ".json"); by constructor.
  - intros f. rewrite elem_of_cons.
    destruct (str_endswith name ".json") eqn:He.
    + rewrite elem_of_cons, Hin. split.
      * intros [->|[? ?]]; [|by auto]. split; [by left|].
        apply str_endswith_spec in He as [stem ->]. by exists stem.
      * intros [[->|?] ?]; auto.
    + rewrite Hin. split; [by intros [? ?]; auto|].
      intros [[->|?] Hj]; [|done]. destruct Hj as [stem Hstem].
      rewrite Hname in Hstem. injection Hstem as ->.
      assert (str_endswith (stem +:+ ".json") ".json" = true) as Ht
        by (apply str_endswith_spec; eauto).
      congruence.
  - intros f [->|?]%elem_of_cons; eauto.
Qed.


(** X17: when [get_json_files_from_git] returns, the status was
    200, every entry of the listing had a string for a name, and the result
    is the listing cut down, in its order, to exactly the entries whose name
    ends in [.json]. *)
Theorem get_json_files_from_git_returned (r : response (list pyval)) l :
  get_json_files_from_git r = Returned l →
  status_code r = 200%Z ∧
  sublist l (json r) ∧
  (∀ file, file ∈ l ↔ file ∈ json r ∧ has_json_name file) ∧
  (∀ file, file ∈ json r → ∃ name, py_subscript file "name" = Ok (PStr name)).
Proof.
  unfold get_json_files_from_git. case_bool_decide as Hs; [|done].
  intros Hl. split; [done|]. by apply json_files_returned.
Qed.

Lemma get_json_files_from_git_returned_witness :
  sublist [PDict [("name", PStr "cs.json"); ("download_url", PStr "https://h/cs.json")];
           PDict [("name", PStr "math.json"); ("download_url", PStr "https://h/math.json")]]
    sample_listing.
Proof.
  apply (get_json_files_from_git_returned (Response 200 sample_listing)).
  reflexivity.
Defined.

(** X18: a status other than 200 makes [get_json_files_from_git]
    raise the exception with the message [Failed to get files: <status>],
    whatever the body; with status 200 an entry without [name] raises
    [KeyError] and a name that is not a string raises [AttributeError], even
    when other entries are well formed. *)
Theorem get_json_files_from_git_failures (r : response (list pyval)) :
  (status_code r ≠ 200%Z →
   get_json_files_from_git r
   = Failed (Exception ("Failed to get files: " +:+ pretty (status_code r)))) ∧
  (status_code r = 200%Z →
   (∃ file, file ∈ json r ∧ ∀ name, py_subscript file "name" ≠ Ok (PStr name)) →
   ∃ f, get_json_files_from_git r = Failed f ∧ ∀ m, f ≠ Exception m).
Proof.
  unfold get_json_files_from_git. split.
  - intros Hs. by rewrite bool_decide_eq_false_2.
  - intros Hs (file & Hin & Hbad). rewrite bool_decide_eq_true_2 by done.
    induction (json r) as [|f fs IH]; [by apply elem_of_nil in Hin|]. simpl.
    destruct (py_subscript f "name") as [[name|]|] eqn:Hname; [|by eauto..].
    apply elem_of_cons in Hin as [->|Hin]; [by destruct (Hbad name)|].
    destruct (IH Hin) as (fl & -> & Hfl). eauto.
Qed.

Lemma get_json_files_from_git_failures_witness :
  get_json_files_from_git (Response 404 sample_listing)
    = Failed (Exception "Failed to get files: 404") ∧
  ∃ f, get_json_files_from_git
         (Response 200 (sample_listing ++ [PDict [("path", PStr "x.json")]]))
       = Failed f ∧ ∀ m, f ≠ Exception m.
Proof.
  split.
  - by apply (proj1 (get_json_files_from_git_failures
                       (Response 404 sample_listing))).
  - apply (proj2 (get_json_files_from_git_failures
                    (Response 200 (sample_listing
                                     ++ [PDict [("path", PStr "x.json")]]))));
      [done|].
    exists (PDict [("path", PStr "x.json")]). split; [|done].
    apply elem_of_app. right. by left.
Defined.



(** * Further properties of ClassArchive.py *)

Lemma update_missing f s x n :
  lookup_path s n = None → can_descend s n = true →
  update false f (s ++ [x]) n = Raise FileNotFoundError.
Proof.
  revert n. induction s as [|y s IH]; intros [d|cs] Hs Hcd; try done.
  simpl in Hs, Hcd. change ((y :: s) ++ [x]) with (y :: (s ++ [x])).
  rewrite update_cons by (by destruct s).
  destruct (cs !! y) as [c|]; [|done]. by rewrite IH.
Qed.

Lemma update_entry_raise parents f s x n cs e :
  lookup_path s n = Some (Dir cs) → f (cs !! x) = Raise e →
  update parents f (s ++ [x]) n = Raise e.
Proof.
  revert n. induction s as [|y s IH]; intros n Hs Hf.
  - simpl in Hs. simplify_eq. simpl. by rewrite Hf.
  - destruct n as [|cs0]; [done|]. simpl in Hs.
    change ((y :: s) ++ [x]) with (y :: (s ++ [x])).
    rewrite update_cons by (by destruct s).
    destruct (cs0 !! y) as [c|]; [|done]. by rewrite (IH c).
Qed.

Lemma archive_directory_zip_open_raise dir_path archive_path w e :
  update false zip_open_entry
    (archive_path ++ [os_path_basename dir_path +:+ ".zip"]) (fs w) = Raise e →
  archive_directory dir_path archive_path w = (Raise e, w).
Proof.
  intros Hup. unfold archive_directory. cbv zeta. rewrite bind_run.
  unfold zip_open, os_path_join. by rewrite mutate_run, Hup.
Qed.

(** X20: when the destination cannot take the archive, archiving
    raises and changes nothing, the source is not even walked: a missing
    archive directory raises [FileNotFoundError], a regular file on the way
    to it [NotADirectoryError], a directory bearing the archive's name
    [IsADirectoryError]. *)
Theorem archive_directory_unusable_destination dir_path archive_path w :
  (lookup_path archive_path (fs w) = None →
   can_descend archive_path (fs w) = true →
   archive_directory dir_path archive_path w = (Raise FileNotFoundError, w)) ∧
  (can_descend archive_path (fs w) = false →
   archive_directory dir_path archive_path w = (Raise NotADirectoryError, w)) ∧
  (is_dir (lookup_path
             (os_path_join archive_path (os_path_basename dir_path +:+ ".zip"))
             (fs w)) = true →
   archive_directory dir_path archive_path w = (Raise IsADirectoryError, w)).
Proof.
  split_and!.
  - intros Hs Hcd. by apply archive_directory_zip_open_raise, update_missing.
  - intros Hcd. by apply archive_directory_zip_open_raise, update_blocked.
  - unfold os_path_join. intros Hz.
    apply archive_directory_zip_open_raise.
    rewrite lookup_path_snoc in Hz.
    destruct (lookup_path archive_path (fs w)) as [[|csa]|] eqn:Ha; try done.
    apply (update_entry_raise _ _ _ _ _ csa); [done|].
    by destruct (csa !! _) as [[|]|].
Qed.

Lemma archive_directory_unusable_destination_witness :
  archive_directory ["OneDrive"; "Spring 2024"] ["Volumes"; "Backup"]
    sample_world = (Raise FileNotFoundError, sample_world) ∧
  archive_directory ["OneDrive"; "Spring 2024"]
    ["OneDrive"; "Spring 2024"; "todo.txt"] sample_world
  = (Raise NotADirectoryError, sample_world).
Proof.
  destruct (archive_directory_unusable_destination
              ["OneDrive"; "Spring 2024"] ["Volumes"; "Backup"] sample_world)
    as (H1 & _).
  destruct (archive_directory_unusable_destination
              ["OneDrive"; "Spring 2024"]
              ["OneDrive"; "Spring 2024"; "todo.txt"] sample_world)
    as (_ & H2 & _).
  split; [by apply H1|by apply H2].
Defined.

(** X21: archiving a source that is not a directory, missing or a
    regular file, does not fail: it writes an archive without members under
    the source's name, prints the line of success, and leaves everything
    beside the archive as it was. *)
Theorem archive_directory_missing_source dir_path archive_path w :
  is_dir (lookup_path dir_path (fs w)) = false →
  is_dir (lookup_path archive_path (fs w)) = true →
  is_dir (lookup_path
            (os_path_join archive_path (os_path_basename dir_path +:+ ".zip"))
            (fs w)) = false →
  ∃ w',
    archive_directory dir_path archive_path w = (Ok (), w') ∧
    lookup_path
      (os_path_join archive_path (os_path_basename dir_path +:+ ".zip")) (fs w')
    = Some (File (Zip [])) ∧
    calls w'
    = calls w ++ [ZipOpen (os_path_join archive_path
                             (os_path_basename dir_path +:+ ".zip"))] ∧
    length (stdout w') = S (length (stdout w)) ∧
    ∀ q, diverge
           (os_path_join archive_path (os_path_basename dir_path +:+ ".zip")) q →
         lookup_path q (fs w') = lookup_path q (fs w).
Proof.
  unfold os_path_join.
  set (name := os_path_basename dir_path +:+ ".zip").
  intros Hsrc Harch Hzip.
  destruct (lookup_path archive_path (fs w)) as [[|csa]|] eqn:Hcsa; try done.
  assert (∃ o, zip_open_entry (csa !! name) = Ok o) as [o Ho].
  { rewrite lookup_path_snoc, Hcsa in Hzip.
    destruct (csa !! name) as [[|]|]; simpl; eauto. done. }
  destruct (update_snoc_ok false zip_open_entry archive_path name (fs w) csa o)
    as [n1 Hn1]; [done..|].
  pose proof (update_snoc_entry _ _ _ _ _ _ Hn1) as He.
  assert (lookup_path (archive_path ++ [name]) n1 = Some (File (Zip []))) as Hz1.
  { destruct (lookup_path (archive_path ++ [name]) (fs w)) as [[|]|];
      simpl in He; by simplify_eq. }
  destruct (update_snoc _ _ _ _ _ _ Hn1) as (_ & _ & _ & _ & _ & Hfr1).
  assert (is_dir (lookup_path dir_path n1) = false) as Hsrc1.
  { destruct (prefix_or_diverge (archive_path ++ [name]) dir_path)
      as [[k Hk]|[[k Hk]|Hd]].
    - rewrite Hk, lookup_path_app, Hz1. by destruct k.
    - destruct k as [|y k _] using rev_ind.
      + rewrite app_nil_r in Hk. by rewrite <- Hk, Hz1.
      + rewrite app_assoc in Hk. apply app_inj_tail in Hk as [-> _].
        rewrite (lookup_path_prefix_dir (dir_path ++ k) dir_path) in Hsrc;
          [done|by exists k|by rewrite Hcsa].
    - by rewrite Hfr1. }
  eexists. split_and!.
  - unfold archive_directory. cbv zeta.
    change (os_path_join archive_path (os_path_basename dir_path +:+ ".zip"))
      with (archive_path ++ [name]).
    rewrite bind_run. unfold zip_open. rewrite mutate_run, Hn1, bind_run.
    unfold os_walk, read. cbn [fs].
    assert (match lookup_path dir_path n1 with
            | Some t => os_walk_node dir_path t
            | None => []
            end = []) as ->.
    { by destruct (lookup_path dir_path n1) as [[|]|]. }
    rewrite bind_run. unfold print. reflexivity.
  - exact Hz1.
  - reflexivity.
  - cbn [stdout]. rewrite length_app. simpl. lia.
  - intros q Hq. by apply Hfr1.
Qed.

Lemma archive_directory_missing_source_witness :
  ∃ w',
    archive_directory ["OneDrive"; "Fall 2024"] main_archive_path sample_world
    = (Ok (), w') ∧
    lookup_path ["Volumes"; "Austin Disk"; "UT Austin"; "Fall 2024.zip"] (fs w')
    = Some (File (Zip [])).
Proof.
  destruct (archive_directory_missing_source ["OneDrive"; "Fall 2024"]
              main_archive_path sample_world)
    as (w' & Hrun & Hz & _); [reflexivity..|].
  exists w'. by split.
Defined.

(** The run of the archiver on a source folder, in full. *)
Lemma archive_directory_run dir_path archive_path w cs :
  lookup_path dir_path (fs w) = Some (Dir cs) →
  is_dir (lookup_path archive_path (fs w)) = true →
  ¬ dir_path `prefix_of` archive_path →
  is_dir (lookup_path (archive_path ++ [os_path_basename dir_path +:+ ".zip"])
            (fs w)) = false →
  ∃ n' out,
    archive_directory dir_path archive_path w
    = (Ok (), World n' (stdout w ++ [out])
         (calls w
          ++ ZipOpen (archive_path ++ [os_path_basename dir_path +:+ ".zip"])
          :: map (λ src, ZipWrite src
                    (os_path_relpath src (os_path_join dir_path "..")))
               (walk_files (os_walk_node dir_path (Dir cs))))) ∧
    lookup_path (archive_path ++ [os_path_basename dir_path +:+ ".zip"]) n'
    = Some (File (Zip (map (λ src,
              (os_path_relpath src (os_path_join dir_path ".."),
               file_content (lookup_path src (fs w))))
            (walk_files (os_walk_node dir_path (Dir cs)))))) ∧
    ∀ q, diverge (archive_path ++ [os_path_basename dir_path +:+ ".zip"]) q →
         lookup_path q n' = lookup_path q (fs w).
Proof.
  set (name := os_path_basename dir_path +:+ ".zip").
  intros Hsrc Harch Hout Hzip.
  pose proof (archive_beside_source _ _ _ _ _ Hsrc Hzip Hout) as Hdiv.
  destruct (lookup_path archive_path (fs w)) as [[|csa]|] eqn:Hcsa; try done.
  assert (∃ o, zip_open_entry (csa !! name) = Ok o) as [o Ho].
  { rewrite lookup_path_snoc, Hcsa in Hzip.
    destruct (csa !! name) as [[|]|]; simpl; eauto. done. }
  destruct (update_snoc_ok false zip_open_entry archive_path name (fs w) csa o)
    as [n1 Hn1]; [done..|].
  pose proof (update_snoc_entry _ _ _ _ _ _ Hn1) as He.
  assert (lookup_path (archive_path ++ [name]) n1 = Some (File (Zip []))) as Hz1.
  { destruct (lookup_path (archive_path ++ [name]) (fs w)) as [[|]|];
      simpl in He; by simplify_eq. }
  destruct (update_snoc _ _ _ _ _ _ Hn1) as (_ & _ & _ & _ & _ & Hfr1).
  assert (∀ q, lookup_path (dir_path ++ q) n1 = lookup_path (dir_path ++ q) (fs w))
    as Hsame by (intros q; apply Hfr1, Hdiv).
  assert (lookup_path dir_path n1 = Some (Dir cs)) as Hsrc1.
  { specialize (Hsame []). by rewrite app_nil_r, Hsrc in Hsame. }
  set (arc := λ src : path, os_path_relpath src (os_path_join dir_path "..")).
  set (srcs := walk_files (os_walk_node dir_path (Dir cs))).
  assert (∀ src, src ∈ srcs →
    ∃ q d, src = dir_path ++ q ∧ lookup_path src (fs w) = Some (File d))
    as Hsrcs.
  { intros src (q & d & _ & -> & Hq)%elem_of_walk_files. exists q, d.
    split; [done|]. by rewrite lookup_path_app, Hsrc. }
  destruct (zip_writes_run archive_path name arc srcs
              (World n1 (stdout w) (calls w ++ [ZipOpen (archive_path ++ [name])]))
              [] Hz1) as (n' & Hrun & Hz' & Hfr').
  { apply Forall_forall. intros src (q & d & -> & Hq)%Hsrcs. split; [done|].
    cbn [fs]. by rewrite Hsame, Hq. }
  cbn [fs stdout calls] in *.
  exists n'. eexists. split_and!.
  - unfold archive_directory. cbv zeta.
    change (os_path_join archive_path (os_path_basename dir_path +:+ ".zip"))
      with (archive_path ++ [name]).
    rewrite bind_run. unfold zip_open. rewrite mutate_run, Hn1, bind_run.
    unfold os_walk, read. cbn [fs]. rewrite Hsrc1.
    rewrite bind_run, archive_loop. fold srcs.
    change (λ src : path, zip_write (archive_path ++ [name]) src
              (os_path_relpath src (os_path_join dir_path "..")))
      with (λ src : path, zip_write (archive_path ++ [name]) src (arc src)).
    rewrite Hrun. unfold print. cbn [fs stdout calls].
    by rewrite <- app_assoc.
  - rewrite Hz'. simpl app. do 3 f_equal.
    apply map_ext_Forall, Forall_forall.
    intros src (q & d & -> & Hq)%Hsrcs. by rewrite Hsame.
  - intros q Hq. rewrite Hfr' by done. by apply Hfr1.
Qed.

(** X22: archiving the same folder again replaces the archive by
    one with the same members in the same order, and again leaves
    everything beside the archive as it was: the second run completes and
    the archive reads the same after it as after the first. *)
Theorem archive_directory_again dir_path archive_path w cs :
  lookup_path dir_path (fs w) = Some (Dir cs) →
  is_dir (lookup_path archive_path (fs w)) = true →
  ¬ dir_path `prefix_of` archive_path →
  is_dir (lookup_path
            (os_path_join archive_path (os_path_basename dir_path +:+ ".zip"))
            (fs w)) = false →
  ∃ w1 w2,
    archive_directory dir_path archive_path w = (Ok (), w1) ∧
    archive_directory dir_path archive_path w1 = (Ok (), w2) ∧
    lookup_path
      (os_path_join archive_path (os_path_basename dir_path +:+ ".zip")) (fs w2)
    = lookup_path
        (os_path_join archive_path (os_path_basename dir_path +:+ ".zip"))
        (fs w1) ∧
    ∀ q, diverge
           (os_path_join archive_path (os_path_basename dir_path +:+ ".zip")) q →
         lookup_path q (fs w2) = lookup_path q (fs w).
Proof.
  unfold os_path_join. intros Hsrc Harch Hout Hzip.
  destruct (archive_directory_run _ _ _ _ Hsrc Harch Hout Hzip)
    as (n1 & out1 & Hrun1 & Hz1 & Hfr1).
  pose proof (archive_beside_source _ _ _ _ _ Hsrc Hzip Hout) as Hdiv.
  set (w1 := World n1 (stdout w ++ [out1])
               (calls w
                ++ ZipOpen (archive_path ++ [os_path_basename dir_path +:+ ".zip"])
                :: map (λ src, ZipWrite src
                          (os_path_relpath src (os_path_join dir_path "..")))
                     (walk_files (os_walk_node dir_path (Dir cs))))) in *.
  assert (∀ q, lookup_path (dir_path ++ q) n1 = lookup_path (dir_path ++ q) (fs w))
    as Hsame by (intros q; apply Hfr1, Hdiv).
  destruct (archive_directory_run dir_path archive_path w1 cs)
    as (n2 & out2 & Hrun2 & Hz2 & Hfr2); try (unfold w1; cbn [fs]).
  { specialize (Hsame []). by rewrite app_nil_r, Hsrc in Hsame. }
  { apply (lookup_path_parent_dir _ (os_path_basename dir_path +:+ ".zip")).
    by rewrite Hz1. }
  { done. }
  { by rewrite Hz1. }
  eexists _, _. split_and!; [exact Hrun1|exact Hrun2| |]; subst w1.
  - cbn [fs] in *. rewrite Hz2, Hz1. do 3 f_equal.
    apply map_ext_Forall, Forall_forall.
    intros src (q & d & _ & -> & Hq)%elem_of_walk_files. by rewrite Hsame.
  - intros q Hq. cbn [fs] in *. rewrite Hfr2 by done. by apply Hfr1.
Qed.

Lemma archive_directory_again_witness :
  ∃ w1 w2,
    archive_directory ["OneDrive"; "Spring 2024"] main_archive_path sample_world
    = (Ok (), w1) ∧
    archive_directory ["OneDrive"; "Spring 2024"] main_archive_path w1
    = (Ok (), w2) ∧
    lookup_path ["Volumes"; "Austin Disk"; "UT Austin"; "Spring 2024.zip"] (fs w2)
    = lookup_path ["Volumes"; "Austin Disk"; "UT Austin"; "Spring 2024.zip"]
        (fs w1).
Proof.
  edestruct (archive_directory_again ["OneDrive"; "Spring 2024"]
               main_archive_path sample_world)
    as (w1 & w2 & H1 & H2 & Hz & _).
  - vm_compute. reflexivity.
  - reflexivity.
  - by intros [k [=]].
  - reflexivity.
  - exists w1, w2. by split_and!.
Defined.

(** * Further properties: finding the OneDrive folder *)

Lemma str_startswith_spec (s prefix : string) :
  str_startswith s prefix = true ↔ ∃ rest, s = prefix +:+ rest.
Proof.
  revert s. induction prefix as [|c prefix IH]; intros s.
  { split; [by exists s|by destruct s]. }
  destruct s as [|a s].
  { split; [done|]. by intros [rest [=]]. }
  simpl. rewrite andb_true_iff, IH, Ascii.eqb_eq. split.
  - intros [-> [rest ->]]. by exists rest.
  - intros [rest [= -> ->]]. eauto.
Qed.

Lemma str_contains_unfold (s pattern : string) :
  str_contains s pattern =
    if str_startswith s pattern then true
    else match s with
         | String _ s' => str_contains s' pattern
         | EmptyString => false
         end.
Proof. by destruct s. Qed.

Lemma str_contains_spec (s pattern : string) :
  str_contains s pattern = true ↔ ∃ a b, s = a +:+ pattern +:+ b.
Proof.
  split.
  - induction s as [|ch s IH]; rewrite str_contains_unfold.
    + destruct (str_startswith "" pattern) eqn:Hp; [|done].
      apply str_startswith_spec in Hp as [b ->]. by exists "", b.
    + destruct (str_startswith (String ch s) pattern) eqn:Hp.
      * apply str_startswith_spec in Hp as [b ->]. by exists "", b.
      * intros (a & b & ->)%IH. by exists (String ch a), b.
  - intros (a & b & ->). induction a as [|ch a IH];
      rewrite str_contains_unfold.
    + change ("" +:+ pattern +:+ b) with (pattern +:+ b).
      rewrite (proj2 (str_startswith_spec (pattern +:+ b) pattern)); eauto.
    + rewrite string_app_cons, IH. by destruct (str_startswith _ pattern).
Qed.

Lemma comprehension_if_ext {A} (c1 c2 : A → M bool) (l : list A) w :
  (∀ d w', c1 d w' = c2 d w') →
  comprehension_if c1 l w = comprehension_if c2 l w.
Proof.
  intros Hext. revert w. induction l as [|x l IH]; intros w; [done|].
  simpl. rewrite !bind_run, Hext.
  destruct (c2 x w) as [[b|e] w']; [|done].
  by rewrite !bind_run, IH.
Qed.

Lemma find_onedrive_directories_run base_path w :
  find_onedrive_directories base_path w =
    match lookup_path base_path (fs w) with
    | Some (Dir cs) =>
        (Ok (map (os_path_join base_path)
               (filter (λ d, str_contains d "OneDrive"
                             && is_dir (lookup_path (os_path_join base_path d)
                                          (fs w)) = true)
                  (names_of cs))), w)
    | Some (File _) => (Raise NotADirectoryError, w)
    | None => (Raise FileNotFoundError, w)
    end.
Proof.
  unfold find_onedrive_directories. rewrite bind_run. unfold os_listdir.
  destruct (lookup_path base_path (fs w)) as [[d|cs]|] eqn:Hb; [done| |done].
  rewrite bind_run.
  rewrite (comprehension_if_ext _
             (λ d, read (λ n, str_contains d "OneDrive"
                              && is_dir (lookup_path (os_path_join base_path d) n)))).
  - by rewrite comprehension_if_read.
  - intros d w'. by destruct (str_contains d "OneDrive").
Qed.



(** ** The walk of [find_onedrive_directory] *)

Lemma elem_of_dirnames_of cs x :
  x ∈ dirnames_of cs ↔ ∃ cs', cs !! x = Some (Dir cs').
Proof.
  unfold dirnames_of. rewrite list_elem_of_fmap. split.
  - intros ([y c] & -> & [Hc Hin]%list_elem_of_filter).
    apply elem_of_map_to_list in Hin. simpl in *.
    destruct c as [|cs']; [done|eauto].
  - intros [cs' Hx]. exists (x, Dir cs'). split; [done|].
    apply list_elem_of_filter. split; [done|]. by apply elem_of_map_to_list.
Qed.

(** The triples of the walk of a directory: its own, and those of the
    walks of its entries. *)
Lemma elem_of_os_walk_node_dir root cs t :
  t ∈ os_walk_node root (Dir cs) ↔
  t = (root, dirnames_of cs, filenames_of cs) ∨
  (∃ x c, cs !! x = Some c ∧ t ∈ os_walk_node (root ++ [x]) c).
Proof.
  simpl. rewrite elem_of_cons. apply Morphisms_Prop.or_iff_morphism; [done|].
  unfold os_path_join.
  apply (map_fold_weak_ind
           (λ r m, t ∈ r ↔
                   ∃ x c, m !! x = Some c
                          ∧ t ∈ os_walk_node (root ++ [x]) c)).
  - split; [by intros ?%elem_of_nil|].
    intros (x & c & Hx & _). by rewrite lookup_empty in Hx.
  - intros i c' m r Hi IH. rewrite elem_of_app, IH. split.
    + intros [?|(x & c & Hx & ?)].
      * exists i, c'. by rewrite lookup_insert_eq.
      * exists x, c. rewrite lookup_insert_ne; [done|]. congruence.
    + intros (x & c & Hx & Hp). rewrite lookup_insert in Hx.
      case_decide; simplify_eq; eauto.
Qed.

(** The walk visits exactly the directories at and under the top, and
    hands over for each its subdirectories and its regular files. *)
Lemma elem_of_os_walk_node n :
  ∀ root t,
  t ∈ os_walk_node root n ↔
  ∃ q cs, lookup_path q n = Some (Dir cs)
          ∧ t = (root ++ q, dirnames_of cs, filenames_of cs).
Proof.
  induction n as [d|cs IH] using node_children_ind; intros root t.
  { split; [by intros ?%elem_of_nil|].
    intros (q & cs & Hl & _). by destruct q. }
  rewrite elem_of_os_walk_node_dir. split.
  - intros [->|(x & c & Hx & Ht)].
    + exists [], cs. by rewrite app_nil_r.
    + apply (IH x c Hx) in Ht as (q & cs' & Hl & ->).
      exists (x :: q), cs'. split; [|by rewrite <- app_assoc].
      simpl. by rewrite Hx.
  - intros (q & cs' & Hl & ->). destruct q as [|x q].
    + left. simpl in Hl. simplify_eq. by rewrite app_nil_r.
    + right. simpl in Hl. destruct (cs !! x) as [c|] eqn:Hx; [|done].
      exists x, c. split; [done|]. apply (IH x c Hx).
      exists q, cs'. split; [done|]. by rewrite <- app_assoc.
Qed.

Lemma first_match_Some root dirs p :
  first_match root dirs = Some p →
  ∃ name, name ∈ dirs ∧ onedrive_pattern_match name = true
          ∧ p = root ++ [name].
Proof.
  induction dirs as [|name dirs IH]; [done|]. simpl.
  destruct (onedrive_pattern_match name) eqn:Hm.
  - intros [= <-]. exists name. split_and!; [left|done..].
  - intros (name' & ? & ? & ->)%IH. exists name'. split_and!; [by right|done..].
Qed.

Lemma first_match_None root dirs :
  first_match root dirs = None ↔
  ∀ name, name ∈ dirs → onedrive_pattern_match name = false.
Proof.
  induction dirs as [|name dirs IH]; simpl.
  { split; [by intros _ ? ?%elem_of_nil|done]. }
  destruct (onedrive_pattern_match name) eqn:Hm.
  - split; [done|]. intros H. specialize (H name). rewrite Hm in H.
    discriminate H. left.
  - rewrite IH. split.
    + intros H name' [->|?]%elem_of_cons; auto.
    + intros H name' ?. apply H. by right.
Qed.

Lemma first_onedrive_Some walk p :
  first_onedrive walk = Some p →
  ∃ root dirs files name,
    (root, dirs, files) ∈ walk ∧ name ∈ dirs
    ∧ onedrive_pattern_match name = true ∧ p = root ++ [name].
Proof.
  induction walk as [|[[root dirs] files] walk IH]; [done|]. simpl.
  destruct (first_match root dirs) as [p'|] eqn:Hm.
  - intros [= <-]. apply first_match_Some in Hm as (name & ? & ? & ->).
    exists root, dirs, files, name. split_and!; [left|done..].
  - intros (root' & dirs' & files' & name & ? & ? & ? & ->)%IH.
    exists root', dirs', files', name. split_and!; [by right|done..].
Qed.

Lemma first_onedrive_None walk :
  first_onedrive walk = None ↔
  ∀ root dirs files name,
    (root, dirs, files) ∈ walk → name ∈ dirs →
    onedrive_pattern_match name = false.
Proof.
  induction walk as [|[[root dirs] files] walk IH]; simpl.
  { split; [by intros _ ? ? ? ? ?%elem_of_nil|done]. }
  destruct (first_match root dirs) as [p'|] eqn:Hm.
  - split; [done|]. intros H.
    apply first_match_Some in Hm as (name & Hin & Hp & _).
    rewrite (H root dirs files name) in Hp; [done|left|done].
  - rewrite IH. split.
    + intros H root' dirs' files' name [[= -> -> ->]|?]%elem_of_cons ?.
      * by eapply first_match_None.
      * eauto.
    + intros H root' dirs' files' name ? ?.
      apply (H root' dirs' files' name); [by right|done].
Qed.

Lemma find_onedrive_directory_run base_path w :
  find_onedrive_directory base_path w =
    (Ok (first_onedrive
           match lookup_path base_path (fs w) with
           | Some t => os_walk_node base_path t
           | None => []
           end), w).
Proof. reflexivity. Qed.

(** A directory strictly below [base_path] is named by the walk of the
    directory that holds it. *)
Lemma walk_names_directory base_path q name n :
  is_dir (lookup_path (base_path ++ q ++ [name]) n) = true ↔
  ∃ t cs, lookup_path base_path n = Some t
          ∧ lookup_path q t = Some (Dir cs) ∧ name ∈ dirnames_of cs.
Proof.
  rewrite app_assoc, lookup_path_snoc, lookup_path_app. split.
  - destruct (lookup_path base_path n) as [t|]; [|done]. simpl.
    destruct (lookup_path q t) as [[d|cs]|] eqn:Hq; [done| |done].
    intros Hd. exists t, cs. split_and!; [done..|].
    apply elem_of_dirnames_of. destruct (cs !! name) as [[|cs']|]; eauto; done.
  - intros (t & cs & -> & Hq & [cs' Hn]%elem_of_dirnames_of). simpl.
    by rewrite Hq, Hn.
Qed.

(** A matching directory directly under [base_path] settles the search at
    the first triple of the walk. *)
Lemma find_onedrive_directory_top base_path w name :
  is_dir (lookup_path (base_path ++ [name]) (fs w)) = true →
  onedrive_pattern_match name = true →
  ∃ name', find_onedrive_directory base_path w
             = (Ok (Some (base_path ++ [name'])), w)
           ∧ onedrive_pattern_match name' = true
           ∧ is_dir (lookup_path (base_path ++ [name']) (fs w)) = true.
Proof.
  intros Hd Hm. rewrite find_onedrive_directory_run.
  rewrite lookup_path_snoc in Hd.
  destruct (lookup_path base_path (fs w)) as [[d|cs]|] eqn:Hb; [done| |done].
  assert (name ∈ dirnames_of cs) as Hin.
  { apply elem_of_dirnames_of. destruct (cs !! name) as [[|cs']|]; eauto; done. }
  simpl. destruct (first_match base_path (dirnames_of cs)) as [p|] eqn:Hf.
  - apply first_match_Some in Hf as (name' & Hin' & Hm' & ->).
    exists name'. split_and!; [done..|].
    apply elem_of_dirnames_of in Hin' as [cs' Hc].
    by rewrite lookup_path_snoc, Hb, Hc.
  - rewrite (proj1 (first_match_None _ _) Hf name Hin) in Hm. done.
Qed.

Lemma startswith_onedrive_pattern rest :
  onedrive_pattern_match ("OneDrive" +:+ rest) = true.
Proof. reflexivity. Qed.

(** X24: ClassSetup's [find_onedrive_directory] never raises
    and changes nothing.  A path it returns is a directory strictly below
    the base path, at any depth, whose name starts with the letters of
    OneDrive in any case; it returns [None] exactly when no directory below
    the base path has such a name, which includes a base path that is
    missing or is a regular file. *)
Theorem find_onedrive_directory_answer base_path w :
  ∃ r, find_onedrive_directory base_path w = (Ok r, w) ∧
       (∀ p, r = Some p →
             ∃ q name, p = base_path ++ q ++ [name]
                       ∧ onedrive_pattern_match name = true
                       ∧ is_dir (lookup_path p (fs w)) = true) ∧
       (r = None ↔
        ∀ q name,
          is_dir (lookup_path (base_path ++ q ++ [name]) (fs w)) = true →
          onedrive_pattern_match name = false).
Proof.
  rewrite find_onedrive_directory_run. eexists. split_and!; [reflexivity| |].
  - intros p (root & dirs & files & name & Ht & Hin & Hm & ->)%first_onedrive_Some.
    destruct (lookup_path base_path (fs w)) as [t|] eqn:Hb;
      [|by apply elem_of_nil in Ht].
    apply elem_of_os_walk_node in Ht as (q & cs & Hq & [= -> -> ->]).
    exists q, name. rewrite <- app_assoc. split_and!; [done..|].
    apply walk_names_directory. eauto.
  - rewrite first_onedrive_None. split.
    + intros H q name (t & cs & Hb & Hq & Hin)%walk_names_directory.
      apply (H (base_path ++ q) (dirnames_of cs) (filenames_of cs));
        [|done].
      rewrite Hb. apply elem_of_os_walk_node. eauto.
    + intros H root dirs files name Ht Hin.
      destruct (lookup_path base_path (fs w)) as [t|] eqn:Hb;
        [|by apply elem_of_nil in Ht].
      apply elem_of_os_walk_node in Ht as (q & cs & Hq & [= -> -> ->]).
      apply (H q). apply walk_names_directory. eauto.
Qed.

(** X25: the search of [find_onedrive_directory] is top down:
    when a directory directly under the base path has a matching name, the
    function returns a matching directory directly under the base path,
    never one that lies deeper. *)
Theorem find_onedrive_directory_prefers_top base_path w name :
  is_dir (lookup_path (base_path ++ [name]) (fs w)) = true →
  onedrive_pattern_match name = true →
  ∃ name', find_onedrive_directory base_path w
             = (Ok (Some (base_path ++ [name'])), w)
           ∧ onedrive_pattern_match name' = true
           ∧ is_dir (lookup_path (base_path ++ [name']) (fs w)) = true.
Proof. apply find_onedrive_directory_top. Qed.

Lemma find_onedrive_directory_prefers_top_witness :
  is_dir (lookup_path (["Users"; "abdon"] ++ ["Documents"; "onedrive backup"])
            (fs home_world)) = true ∧
  onedrive_pattern_match "onedrive backup" = true ∧
  ∃ name', find_onedrive_directory ["Users"; "abdon"] home_world
             = (Ok (Some (["Users"; "abdon"] ++ [name'])), home_world)
           ∧ onedrive_pattern_match name' = true
           ∧ is_dir (lookup_path (["Users"; "abdon"] ++ [name'])
                       (fs home_world)) = true.
Proof.
  split_and!; [vm_compute; reflexivity..|].
  apply (find_onedrive_directory_prefers_top _ _ "OneDrive - UT");
    vm_compute; reflexivity.
Defined.

(** X26: a folder directly under the base path whose name
    begins with OneDrive, in these capitals, is found by both scripts:
    ClassArchive's [find_onedrive_directories] lists it, and ClassSetup's
    [find_onedrive_directory] returns a folder directly under the base
    path. *)
Theorem onedrive_folder_found_by_both base_path w rest :
  is_dir (lookup_path (base_path ++ ["OneDrive" +:+ rest]) (fs w)) = true →
  (∃ l, find_onedrive_directories base_path w = (Ok l, w)
        ∧ base_path ++ ["OneDrive" +:+ rest] ∈ l) ∧
  (∃ name', find_onedrive_directory base_path w
              = (Ok (Some (base_path ++ [name'])), w)
            ∧ onedrive_pattern_match name' = true
            ∧ is_dir (lookup_path (base_path ++ [name']) (fs w)) = true).
Proof.
  intros Hd. split.
  - rewrite find_onedrive_directories_run.
    pose proof Hd as Hd'. rewrite lookup_path_snoc in Hd'.
    destruct (lookup_path base_path (fs w)) as [[d|cs]|] eqn:Hb;
      [done| |done].
    eexists. split; [reflexivity|].
    change (map ?g ?l) with (g <$> l). apply list_elem_of_fmap.
    exists ("OneDrive" +:+ rest). split; [done|].
    apply list_elem_of_filter. split.
    + apply andb_true_iff. split; [|done].
      apply str_contains_spec. by exists "", rest.
    + apply elem_of_names_of. by destruct (cs !! _).
  - apply (find_onedrive_directory_top _ _ _ Hd),
      startswith_onedrive_pattern.
Qed.

Lemma onedrive_folder_found_by_both_witness :
  (∃ l, find_onedrive_directories ["Users"; "abdon"] home_world
          = (Ok l, home_world)
        ∧ ["Users"; "abdon"] ++ ["OneDrive" +:+ " - UT"] ∈ l) ∧
  (∃ name', find_onedrive_directory ["Users"; "abdon"] home_world
              = (Ok (Some (["Users"; "abdon"] ++ [name'])), home_world)
            ∧ onedrive_pattern_match name' = true
            ∧ is_dir (lookup_path (["Users"; "abdon"] ++ [name'])
                        (fs home_world)) = true).
Proof.
  apply (onedrive_folder_found_by_both ["Users"; "abdon"] home_world " - UT").
  vm_compute. reflexivity.
Defined.
